(** * Search NEU: the Elasticsearch access layer ([backend/elastic.js])

    A shallow embedding of the [Elastic] class: the requests it builds, the
    way it folds the engine's responses, and the instance state it keeps
    (the subject cache).  The index engine is an external collaborator; the
    part of its documented behaviour the class relies on is modelled in
    [Module Es], over an [Engine] record holding what the sources leave to
    the engine and to the index mapping (analysis, term weights, limits). *)

From Stdlib Require Import ZArith Lia Ascii String List Sorting.Sorted.
From stdpp Require Import base decidable option list sorting strings gmap fin_maps.

Set Warnings "-register-all".

Open Scope string_scope.
Open Scope Z_scope.

(** ** JSON values

    Documents are loosely typed JavaScript objects.  Objects keep their keys
    in enumeration order; numbers are integers (scores are kept in the
    engine's fixed-point units). *)

Inductive json : Type :=
| JNull
| JBool (b : bool)
| JNum (n : Z)
| JStr (s : string)
| JArr (items : list json)
| JObj (props : list (string * json)).

Module Json.

(** [o[k]] on the property list of an object. *)
Fixpoint lookup (k : string) (props : list (string * json)) : option json :=
  match props with
  | [] => None
  | (k', v) :: rest => if String.eqb k k' then Some v else lookup k rest
  end.

(** [o[k] = v]: an existing key keeps its place, a new key goes last. *)
Fixpoint assign (k : string) (v : json) (props : list (string * json))
  : list (string * json) :=
  match props with
  | [] => [(k, v)]
  | (k', v') :: rest =>
      if String.eqb k k' then (k', v) :: rest else (k', v') :: assign k v rest
  end.

Definition get (k : string) (j : json) : option json :=
  match j with
  | JObj props => lookup k props
  | _ => None
  end.

(** [j.a.b.c] for the path [[a; b; c]]. *)
Fixpoint get_path (path : list string) (j : json) : option json :=
  match path with
  | [] => Some j
  | k :: rest =>
      match get k j with
      | Some j' => get_path rest j'
      | None => None
      end
  end.

(** The string values stored under a field: a string is one value, an
    array holds several, anything else holds none. *)
Definition strings_of (j : json) : list string :=
  match j with
  | JStr s => [s]
  | JArr items =>
      flat_map (fun i => match i with JStr s => [s] | _ => [] end) items
  | _ => []
  end.

Definition get_string (path : list string) (j : json) : option string :=
  match get_path path j with
  | Some (JStr s) => Some s
  | _ => None
  end.

Definition get_num (path : list string) (j : json) : option Z :=
  match get_path path j with
  | Some (JNum n) => Some n
  | _ => None
  end.

End Json.

(** ** JavaScript and lodash helpers *)

Module Js.

(** [String.prototype.toLowerCase] on the ASCII range; other bytes are
    left as they are. *)
Definition lower_ascii (c : ascii) : ascii :=
  let n := nat_of_ascii c in
  if ((65 <=? n)%nat && (n <=? 90)%nat)%bool then ascii_of_nat (n + 32) else c.

Fixpoint toLowerCase (s : string) : string :=
  match s with
  | EmptyString => EmptyString
  | String c rest => String (lower_ascii c) (toLowerCase rest)
  end.

(** [_.chunk(array, size)]: [ceil(length / size)] slices
    [array.slice(i * size, (i + 1) * size)]; no chunk at all for a size
    below one. *)
Definition chunk {A : Type} (array : list A) (size : nat) : list (list A) :=
  match size with
  | O => []
  | _ =>
      (fun i => take size (drop (i * size) array))
        <$> seq 0 ((length array + size - 1) / size)%nat
  end.

(** [Object.keys(map)] of an object used as a map from ids to values: each
    key once, in the enumeration order of the map. *)
Definition keys {V : Type} (map : gmap string V) : list string :=
  (map_to_list map).*1.

End Js.

(** ** The index engine

    What the class asks of Elasticsearch, as the engine documents it: the
    request shapes the sources build, and the response to each over an
    explicit engine state. *)

Module Es.

(** *** Requests *)

Inductive MultiMatchType := most_fields | best_fields.

Record MultiMatch := {
  mm_query : string;
  mm_type : MultiMatchType;
  mm_fields : option (list string)   (* [None]: the property is undefined *)
}.

(** Clauses in filter context: a [term] clause, or a [bool] holding only
    [should] clauses. *)
Inductive FilterClause :=
| term (field value : string)
| bool_should (clauses : list FilterClause).

Record BoolQuery := { bq_must : MultiMatch; bq_filter : FilterClause }.

Inductive Order := asc | desc.

Inductive SortKey :=
| by_score                                   (* the string ['_score'] *)
| by_field (field : string) (order : Order) (unmapped_type : option string).

Record TermsAgg := { agg_field : string; agg_size : Z }.

(** The body of [client.search]; a property the caller leaves out is
    [None] (or the empty sort). *)
Record SearchBody := {
  sort : list SortKey;
  query : option BoolQuery;
  aggs : option TermsAgg            (* a [global] terms aggregation *)
}.

Record SearchRequest := {
  sr_index : string;
  sr_from : option Z;
  sr_size : option Z;
  sr_body : SearchBody
}.

Inductive Refresh := refresh_true | wait_for | refresh_false.

Record BulkRequest := {
  bulk_index : string;
  refresh : option Refresh;
  bulk_body : list json
}.

Record MgetRequest := { mget_index : string; ids : list string }.

(** *** Responses *)

Record Hit := { _id : string; _score : Z; _source : json }.

Record Bucket := { key : string; doc_count : nat }.

Record SearchResponse := {
  took : Z;
  hits : list Hit;
  total_value : Z;
  buckets : list Bucket             (* of the aggregation, when one was asked *)
}.

Record BulkResponse := { errors : bool }.

Inductive Error :=
| index_not_found (name : string)
| illegal_argument (reason : string)
| request_rejected.

Definition Result (A : Type) : Type := Error + A.

(** *** Engine parameters

    What the sources leave to the engine and to the index mapping. *)
Record Engine := {
  (** the search analyzer of a field, applied to the query text *)
  analyze : string -> string -> list string;
  (** relevance a query token earns in a field of a document; [None] when
      the token does not occur there *)
  term_score : string -> string -> json -> option Z;
  (** the fields a [multi_match] without [fields] runs over *)
  default_fields : list string;
  (** [index.max_result_window] *)
  max_result_window : Z;
  (** the bound up to which total hits are counted *)
  track_total_hits : Z;
  (** reported query latency *)
  latency : Z;
  (** the constant score of [match_all] *)
  match_all_score : Z;
  (** whether the engine refuses a bulk request outright *)
  bulk_rejected : BulkRequest -> bool
}.

(** *** Engine state

    Near-real-time storage: a write lands in [latest] (what a get by id
    reads) and reaches [searchable] (what a search reads) at the next
    refresh. *)
Record Index := {
  latest : gmap string json;
  searchable : gmap string json
}.

Definition empty_index : Index := {| latest := ∅; searchable := ∅ |}.

Definition refresh_index (i : Index) : Index :=
  {| latest := latest i; searchable := latest i |}.

(** *** Field access

    Modelled from the spec: the index mapping is not part of the sources.
    A field is addressed by its dotted path into the document source; a
    trailing [keyword] names the untokenised sub-field of that path, whose
    values are the stored strings themselves.  The discriminator [type] and
    the identifiers compared by [term] clauses are single exact terms. *)

Fixpoint split_dots (cur : string) (s : string) : list string :=
  match s with
  | EmptyString => [String.rev cur]
  | String c rest =>
      if Ascii.eqb c "."%char then String.rev cur :: split_dots "" rest
      else split_dots (String c cur) rest
  end.

Definition field_path (field : string) : list string :=
  let path := split_dots "" field in
  match reverse path with
  | "keyword" :: (_ :: _) as parents => reverse parents
  | _ => path
  end.

Definition field_values (field : string) (source : json) : list string :=
  match Json.get_path (field_path field) source with
  | Some j => Json.strings_of j
  | None => []
  end.

(** *** Matching and scoring *)

Fixpoint filter_matches (c : FilterClause) (source : json) : bool :=
  match c with
  | term field value => existsb (String.eqb value) (field_values field source)
  | bool_should clauses =>
      match clauses with
      | [] => true
      | _ => existsb (fun c' => filter_matches c' source) clauses
      end
  end.

(** Scores of the clauses that matched, added up (as [most_fields] and
    [or] do, up to a constant factor); no match when none did. *)
Definition sum_matched (scores : list (option Z)) : option Z :=
  match omap id scores with
  | [] => None
  | matched => Some (foldr Z.add 0 matched)
  end.

Definition best_matched (scores : list (option Z)) : option Z :=
  match omap id scores with
  | [] => None
  | s :: matched => Some (foldr Z.max s matched)
  end.

(** A [match] query on one field: the query text is analysed, a text that
    yields no token matches no document ([zero_terms_query: none]), and
    the tokens are combined with [or]. *)
Definition match_score (E : Engine) (field text : string) (source : json)
  : option Z :=
  match analyze E field text with
  | [] => None
  | tokens => sum_matched ((fun t => term_score E field t source) <$> tokens)
  end.

Definition multi_match_score (E : Engine) (mm : MultiMatch) (source : json)
  : option Z :=
  let fields := default (default_fields E) (mm_fields mm) in
  let per_field := (fun f => match_score E f (mm_query mm) source) <$> fields in
  match mm_type mm with
  | most_fields => sum_matched per_field
  | best_fields => best_matched per_field
  end.

(** [bool]: the [must] clause decides the score, the [filter] clause only
    eligibility. *)
Definition query_score (E : Engine) (q : BoolQuery) (source : json)
  : option Z :=
  if filter_matches (bq_filter q) source
  then multi_match_score E (bq_must q) source
  else None.

Definition score_doc (E : Engine) (q : BoolQuery) (doc : string * json)
  : option Hit :=
  (fun s => {| _id := doc.1; _score := s; _source := doc.2 |})
    <$> query_score E q doc.2.

(** *** Sorting *)

Fixpoint least (l : list string) : option string :=
  match l with
  | [] => None
  | s :: rest =>
      match least rest with
      | Some m => Some (if String.leb s m then s else m)
      | None => Some s
      end
  end.

Fixpoint greatest (l : list string) : option string :=
  match l with
  | [] => None
  | s :: rest =>
      match greatest rest with
      | Some m => Some (if String.leb s m then m else s)
      | None => Some s
      end
  end.

(** The sort value of a hit for a field: the least value when ascending,
    the greatest when descending, none when the field is missing. *)
Definition sort_value (field : string) (order : Order) (h : Hit)
  : option string :=
  match order with
  | asc => least (field_values field (_source h))
  | desc => greatest (field_values field (_source h))
  end.

(** Keyword values compare byte-wise; a missing value sorts last. *)
Definition compare_values (order : Order) (x y : option string) : comparison :=
  match x, y with
  | Some a, Some b =>
      match order with
      | asc => String.compare a b
      | desc => String.compare b a
      end
  | Some _, None => Lt
  | None, Some _ => Gt
  | None, None => Eq
  end.

(** [Lt]: the first hit is listed before the second.  ['_score'] sorts
    descending. *)
Definition compare_key (k : SortKey) (a b : Hit) : comparison :=
  match k with
  | by_score => Z.compare (_score b) (_score a)
  | by_field field order _ =>
      compare_values order (sort_value field order a) (sort_value field order b)
  end.

Fixpoint compare_hits (sort : list SortKey) (a b : Hit) : comparison :=
  match sort with
  | [] => Eq
  | k :: rest =>
      match compare_key k a b with
      | Eq => compare_hits rest a b
      | c => c
      end
  end.

Definition hit_leb (sort : list SortKey) (a b : Hit) : bool :=
  match compare_hits sort a b with
  | Gt => false
  | _ => true
  end.

Definition hit_le (sort : list SortKey) (a b : Hit) : Prop :=
  hit_leb sort a b = true.

#[global] Instance hit_le_dec sort : RelDecision (hit_le sort).
Proof. intros a b. unfold hit_le. apply _. Defined.

Definition rank (sort : list SortKey) (matched : list Hit) : list Hit :=
  merge_sort (hit_le sort) matched.

(** *** Searching *)

Definition window {A : Type} (from size : Z) (l : list A) : list A :=
  take (Z.to_nat size) (drop (Z.to_nat from) l).

Definition matched_hits (E : Engine) (q : option BoolQuery) (i : Index)
  : list Hit :=
  match q with
  | Some q => omap (score_doc E q) (map_to_list (searchable i))
  | None =>
      (fun doc => {| _id := doc.1; _score := match_all_score E; _source := doc.2 |})
        <$> map_to_list (searchable i)
  end.

(** *** Terms aggregation

    One bucket per distinct value of the field, counting the documents
    that hold it; buckets come by descending count, then ascending key,
    and only the first [agg_size] are returned.  The [global] scope makes
    it run over every document of the index. *)

Definition count_terms (field : string) (sources : list json)
  : gmap string nat :=
  foldr (fun source counts =>
           foldr (fun v acc => <[v := S (default O (acc !! v))]> acc)
                 counts (remove_dups (field_values field source)))
        ∅ sources.

Definition bucket_leb (a b : Bucket) : bool :=
  ((doc_count b <? doc_count a)%nat
   || ((doc_count a =? doc_count b)%nat && String.leb (key a) (key b)))%bool.

Definition bucket_le (a b : Bucket) : Prop := bucket_leb a b = true.

#[global] Instance bucket_le_dec : RelDecision bucket_le.
Proof. intros a b. unfold bucket_le. apply _. Defined.

Definition terms_buckets (agg : TermsAgg) (sources : list json) : list Bucket :=
  take (Z.to_nat (agg_size agg))
       (merge_sort bucket_le
          ((fun kc => {| key := kc.1; doc_count := kc.2 |})
             <$> map_to_list (count_terms (agg_field agg) sources))).

(** [client.search]: the hits are the matching documents, ranked by the
    sort keys (by score when there are none) and cut to the window
    [from, from + size); [from] defaults to 0 and [size] to 10. *)
Definition search (E : Engine) (st : gmap string Index) (r : SearchRequest)
  : Result SearchResponse :=
  match st !! sr_index r with
  | None => inl (index_not_found (sr_index r))
  | Some i =>
      let from := default 0 (sr_from r) in
      let size := default 10 (sr_size r) in
      if ((from <? 0) || (size <? 0))%bool
      then inl (illegal_argument "[from] and [size] cannot be negative")
      else if max_result_window E <? from + size
      then inl (illegal_argument "Result window is too large")
      else
        let matched := matched_hits E (query (sr_body r)) i in
        let keys := match sort (sr_body r) with [] => [by_score] | ks => ks end in
        inr {| took := latency E;
               hits := window from size (rank keys matched);
               total_value := Z.min (Z.of_nat (length matched)) (track_total_hits E);
               buckets :=
                 match aggs (sr_body r) with
                 | Some agg => terms_buckets agg (map_to_list (searchable i)).*2
                 | None => []
                 end |}
  end.

(** *** Multi-get

    Reads are real-time: they see [latest].  The response lists the
    requested ids in order, each marked found or not. *)

Module Mget.
(** An entry of [docs]: [found : true] with its [_source], or
    [found : false]. *)
Inductive Doc :=
| found (_id : string) (_source : json)
| missing (_id : string).
End Mget.

Definition mget_doc (i : Index) (id : string) : Mget.Doc :=
  match latest i !! id with
  | Some source => Mget.found id source
  | None => Mget.missing id
  end.

Definition mget (st : gmap string Index) (r : MgetRequest)
  : Result (list Mget.Doc) :=
  match st !! mget_index r with
  | None => inl (index_not_found (mget_index r))
  | Some i => inr (mget_doc i <$> ids r)
  end.

(** *** Bulk writes

    The body alternates an action line and its payload.  [index] stores
    the payload as the whole document; [update] merges the payload's [doc]
    into the stored document and reports an item error when there is
    none. *)

Inductive BulkOp :=
| op_index (id : string) (source : json)
| op_update (id : string) (patch : json).

Definition parse_action (action payload : json) : option BulkOp :=
  match action with
  | JObj [("index", meta)] =>
      id ← Json.get_string ["_id"] meta; Some (op_index id payload)
  | JObj [("update", meta)] =>
      id ← Json.get_string ["_id"] meta;
      patch ← Json.get "doc" payload;
      Some (op_update id patch)
  | _ => None
  end.

Fixpoint parse_bulk (lines : list json) : option (list BulkOp) :=
  match lines with
  | [] => Some []
  | action :: payload :: rest =>
      op ← parse_action action payload;
      ops ← parse_bulk rest;
      Some (op :: ops)
  | _ => None
  end.

(** A partial document patches the fields it provides, objects
    recursively, and leaves the others. *)
Fixpoint merge_json (patch old : json) {struct patch} : json :=
  match patch, old with
  | JObj fields, JObj props =>
      JObj ((fix go (fields props : list (string * json)) :=
               match fields with
               | [] => props
               | (k, v) :: rest =>
                   go rest
                      (Json.assign k
                         (match Json.lookup k props with
                          | Some v' => merge_json v v'
                          | None => v
                          end) props)
               end) fields props)
  | _, _ => patch
  end.

Definition apply_op (acc : gmap string json * bool) (op : BulkOp)
  : gmap string json * bool :=
  match op with
  | op_index id source => (<[id := source]> acc.1, acc.2)
  | op_update id patch =>
      match acc.1 !! id with
      | Some old => (<[id := merge_json patch old]> acc.1, acc.2)
      | None => (acc.1, true)
      end
  end.

Definition is_visible (r : option Refresh) : bool :=
  match r with
  | Some refresh_true | Some wait_for => true
  | Some refresh_false | None => false
  end.

(** [client.bulk]: an empty body is refused, a missing index is created;
    with [refresh] the call returns once the written documents are
    searchable. *)
Definition bulk (E : Engine) (st : gmap string Index) (r : BulkRequest)
  : Result (gmap string Index * BulkResponse) :=
  if bulk_rejected E r then inl request_rejected
  else
    match parse_bulk (bulk_body r) with
    | None => inl (illegal_argument "Malformed action/metadata line")
    | Some [] => inl (illegal_argument "request body is required")
    | Some ops =>
        let i := default empty_index (st !! bulk_index r) in
        let written := foldl apply_op (latest i, false) ops in
        let i' := {| latest := written.1; searchable := searchable i |} in
        let i'' := if is_visible (refresh r) then refresh_index i' else i' in
        inr (<[bulk_index r := i'']> st, {| errors := written.2 |})
    end.

End Es.

(** ** The [Elastic] class *)

Module Elastic.

(** What the client sends and what comes back, in order. *)
Inductive Event :=
| search_sent (r : Es.SearchRequest)
| mget_sent (r : Es.MgetRequest)
| bulk_sent (r : Es.BulkRequest)
| bulk_settled (r : Es.BulkRequest) (fulfilled : bool).

(** The exported instance.  [subjects] is [null] or a reference to a [Set]. *)
Record Instance := {
  CLASS_INDEX : string;
  EMPLOYEE_INDEX : string;
  subjects : option nat
}.

Definition constructor : Instance :=
  {| CLASS_INDEX := "classes"; EMPLOYEE_INDEX := "employees"; subjects := None |}.

(** The process: the engine behind the client, the [Set] objects allocated
    so far (a reference is a position in [sets]), the instance, and the
    record of client calls. *)
Record World := {
  engine : gmap string Es.Index;
  sets : list (gset string);
  this : Instance;
  log : list Event
}.

(** An [async] computation run to settlement: rejected with an error or
    fulfilled with a value. *)
Definition Promise (A : Type) : Type := World -> Es.Result A * World.

#[global] Instance promise_ret : MRet Promise := fun A x w => (inr x, w).

#[global] Instance promise_bind : MBind Promise := fun A B f m w =>
  match m w with
  | (inr x, w') => f x w'
  | (inl e, w') => (inl e, w')
  end.

Definition get_this : Promise Instance := fun w => (inr (this w), w).

Definition record (e : Event) (w : World) : World :=
  {| engine := engine w; sets := sets w; this := this w; log := log w ++ [e] |}.

Definition with_engine (st : gmap string Es.Index) (w : World) : World :=
  {| engine := st; sets := sets w; this := this w; log := log w |}.

(** [this.subjects = set] *)
Definition set_subjects (set : nat) : Promise unit := fun w =>
  (inr tt,
   {| engine := engine w; sets := sets w;
      this := {| CLASS_INDEX := CLASS_INDEX (this w);
                 EMPLOYEE_INDEX := EMPLOYEE_INDEX (this w);
                 subjects := Some set |};
      log := log w |}).

(** [new Set(values)] *)
Definition new_Set (values : list string) : Promise nat := fun w =>
  (inr (length (sets w)),
   {| engine := engine w; sets := sets w ++ [list_to_set values];
      this := this w; log := log w |}).

Section Client.

Context (E : Es.Engine).

Definition client_search (r : Es.SearchRequest) : Promise Es.SearchResponse :=
  fun w => (Es.search E (engine w) r, record (search_sent r) w).

Definition client_mget (r : Es.MgetRequest) : Promise (list Es.Mget.Doc) :=
  fun w => (Es.mget (engine w) r, record (mget_sent r) w).

Definition client_bulk (r : Es.BulkRequest) : Promise Es.BulkResponse :=
  fun w =>
    let w' := record (bulk_sent r) w in
    match Es.bulk E (engine w) r with
    | inr (st, response) =>
        (inr response, record (bulk_settled r true) (with_engine st w'))
    | inl e => (inl e, record (bulk_settled r false) w')
    end.

(** *** [bulkIndexFromMap] *)

Definition index_lines (map : gmap string json) (part : list string)
  : list json :=
  flat_map (fun id =>
              [JObj [("index", JObj [("_id", JStr id)])];
               default JNull (map !! id)]) part.

Definition index_request (indexName : string) (map : gmap string json)
    (part : list string) : Es.BulkRequest :=
  {| Es.bulk_index := indexName;
     Es.refresh := Some Es.wait_for;
     Es.bulk_body := index_lines map part |}.

(** The loop extends the chain with [promises.then(() => client.bulk(...))]:
    the request of a part is sent once the chain so far is fulfilled, and
    not at all once it is rejected.  The chain starts from
    [Promise.resolve()]. *)
Definition bulkIndexFromMap (indexName : string) (map : gmap string json)
  : Promise (option Es.BulkResponse) :=
  foldl (fun promises part =>
           _ ← promises;
           response ← client_bulk (index_request indexName map part);
           mret (Some response))
        (mret None)
        (Js.chunk (Js.keys map) 100).

(** *** [bulkUpdateFromMap] *)

Definition update_lines (map : gmap string json) (ids : list string)
  : list json :=
  flat_map (fun id =>
              [JObj [("update", JObj [("_id", JStr id)])];
               JObj [("doc", default JNull (map !! id))]]) ids.

Definition update_request (indexName : string) (map : gmap string json)
  : Es.BulkRequest :=
  {| Es.bulk_index := indexName;
     Es.refresh := None;
     Es.bulk_body := update_lines map (Js.keys map) |}.

Definition bulkUpdateFromMap (indexName : string) (map : gmap string json)
  : Promise unit :=
  _ ← client_bulk (update_request indexName map);
  mret tt.

(** *** [getMapFromIDs] *)

Definition collect_found (result : gmap string json) (doc : Es.Mget.Doc)
  : gmap string json :=
  match doc with
  | Es.Mget.found _id _source => <[_id := _source]> result
  | Es.Mget.missing _ => result
  end.

Definition getMapFromIDs (indexName : string) (ids : list string)
  : Promise (gmap string json) :=
  got ← client_mget {| Es.mget_index := indexName; Es.ids := ids |};
  mret (foldl collect_found ∅ got).

(** *** [getSubjectsFromClasses] *)

Definition subjects_request (index : string) : Es.SearchRequest :=
  {| Es.sr_index := index;
     Es.sr_from := None;
     Es.sr_size := None;
     Es.sr_body :=
       {| Es.sort := [];
          Es.query := None;
          Es.aggs := Some {| Es.agg_field := "class.subject.keyword";
                             Es.agg_size := 10000 |} |} |}.

Definition getSubjectsFromClasses : Promise nat :=
  self ← get_this;
  match subjects self with
  | Some cached => mret cached
  | None =>
      subjectAgg ← client_search (subjects_request (CLASS_INDEX self));
      set ← new_Set ((fun subject => Js.toLowerCase (Es.key subject))
                       <$> Es.buckets subjectAgg);
      _ ← set_subjects set;
      mret set
  end.

(** *** [search] *)

Record SearchResult := {
  searchContent : list json;
  resultCount : Z;
  took : Z
}.

Definition search_request (index query termId : string) (min max : Z)
    (searchFields : option (list string)) : Es.SearchRequest :=
  {| Es.sr_index := index;
     Es.sr_from := Some min;
     Es.sr_size := Some (max - min);
     Es.sr_body :=
       {| Es.sort :=
            [Es.by_score;
             Es.by_field "class.classId.keyword" Es.asc (Some "keyword")];
          Es.query :=
            Some {| Es.bq_must :=
                      {| Es.mm_query := query;
                         Es.mm_type := Es.most_fields;
                         Es.mm_fields := searchFields |};
                    Es.bq_filter :=
                      Es.bool_should
                        [Es.term "class.termId" termId;
                         Es.term "type" "employee"] |};
          Es.aggs := None |} |}.

(** [{ ...hit._source, score: hit._score }] *)
Definition with_score (hit : Es.Hit) : json :=
  match Es._source hit with
  | JObj props => JObj (Json.assign "score" (JNum (Es._score hit)) props)
  | _ => JObj [("score", JNum (Es._score hit))]
  end.

Definition search (query termId : string) (min max : Z)
    (searchFields : option (list string)) : Promise SearchResult :=
  self ← get_this;
  searchOutput ← client_search
    (search_request (CLASS_INDEX self) query termId min max searchFields);
  mret {| searchContent := with_score <$> Es.hits searchOutput;
          resultCount := Es.total_value searchOutput;
          took := Es.took searchOutput |}.

End Client.

(** The process right after the module is loaded, over a given engine
    state. *)
Definition boot (st : gmap string Es.Index) : World :=
  {| engine := st; sets := []; this := constructor; log := [] |}.

End Elastic.

(** ** Vocabulary of the properties *)

(** The hits the engine returns for a [search] call over an index. *)
Definition search_hits (E : Es.Engine) (i : Es.Index) (query termId : string)
    (min max : Z) (searchFields : option (list string)) : list Es.Hit :=
  let r := Elastic.search_request "" query termId min max searchFields in
  Es.window min (max - min)
    (Es.rank (Es.sort (Es.sr_body r))
       (Es.matched_hits E (Es.query (Es.sr_body r)) i)).

(** A window the engine accepts. *)
Definition valid_window (E : Es.Engine) (min max : Z) : Prop :=
  0 <= min /\ min <= max /\ max <= Es.max_result_window E.

(** [value] is a term of [field] in the document. *)
Definition has_term (field value : string) (d : json) : bool :=
  existsb (String.eqb value) (Es.field_values field d).

(** The eligibility rule of [search]: in the requested term, or an
    employee. *)
Definition eligible (termId : string) (d : json) : bool :=
  (has_term "class.termId" termId d || has_term "type" "employee" d)%bool.

(** The filter clause [search] sends. *)
Definition search_filter (termId : string) : Es.FilterClause :=
  Es.bool_should [Es.term "class.termId" termId; Es.term "type" "employee"].

(** The [must] clause [search] sends. *)
Definition search_must (query : string) (searchFields : option (list string))
  : Es.MultiMatch :=
  {| Es.mm_query := query; Es.mm_type := Es.most_fields;
     Es.mm_fields := searchFields |}.

(** The discriminator and the term of a result document. *)
Definition doc_type (d : json) : option string := Json.get_string ["type"] d.

Definition class_termId (d : json) : option string :=
  Json.get_string ["class"; "termId"] d.

(** The filter a request carries. *)
Definition request_filter (r : Es.SearchRequest) : option Es.FilterClause :=
  Es.bq_filter <$> Es.query (Es.sr_body r).

(** The sort keys [search] sends. *)
Definition search_sort : list Es.SortKey :=
  [Es.by_score; Es.by_field "class.classId.keyword" Es.asc (Some "keyword")].

(** Relevance and class identifier as a result document carries them. *)
Definition result_score (d : json) : option Z := Json.get_num ["score"] d.

Definition class_classId (d : json) : option string :=
  Json.get_string ["class"; "classId"] d.

(** The value of a string of decimal digits. *)
Fixpoint decimal_from (acc : N) (s : string) : option N :=
  match s with
  | EmptyString => Some acc
  | String c rest =>
      match Ascii.is_nat c with
      | Some d => decimal_from (10 * acc + N.of_nat d) rest
      | None => None
      end
  end.

Definition decimal (s : string) : option N :=
  match s with
  | EmptyString => None
  | _ => decimal_from 0 s
  end.

(** Tie-break orders on a result list: at equal score, the document whose
    class identifier is smaller comes first.  [tiebreak_numeric] reads the
    identifiers as numbers, [tiebreak_keyword] as byte strings. *)
Definition tiebreak_numeric (content : list json) : Prop :=
  forall (i j : nat) di dj a b na nb,
    content !! i = Some di -> content !! j = Some dj ->
    result_score di = result_score dj ->
    class_classId di = Some a -> class_classId dj = Some b ->
    decimal a = Some na -> decimal b = Some nb ->
    (na < nb)%N -> (i < j)%nat.

Definition tiebreak_keyword (content : list json) : Prop :=
  forall (i j : nat) di dj a b,
    content !! i = Some di -> content !! j = Some dj ->
    result_score di = result_score dj ->
    class_classId di = Some a -> class_classId dj = Some b ->
    String.ltb a b = true -> (i < j)%nat.

(** Scores never increase down a result list. *)
Definition score_descending (content : list json) : Prop :=
  forall (i j : nat) di dj,
    content !! i = Some di -> content !! j = Some dj -> (i < j)%nat ->
    exists si sj,
      result_score di = Some si /\ result_score dj = Some sj /\ sj <= si.

(** ** A small engine and catalogue

    A concrete instance to run the class on: text is lowercased and split at
    white space, and a token earns one point in each field where it occurs
    as a word. *)

Module Demo.

Definition tokens (text : string) : list string :=
  String.words (Js.toLowerCase text).

Definition term_score (field token : string) (source : json) : option Z :=
  if existsb (fun v => existsb (String.eqb token) (tokens v))
             (Es.field_values field source)
  then Some 1 else None.

Definition engine : Es.Engine :=
  {| Es.analyze := fun _ text => tokens text;
     Es.term_score := term_score;
     Es.default_fields :=
       ["class.name"; "class.desc"; "class.crns";
        "employee.name"; "employee.emails"];
     Es.max_result_window := 10000;
     Es.track_total_hits := 10000;
     Es.latency := 3;
     Es.match_all_score := 1;
     Es.bulk_rejected := fun _ => false |}.

Definition class_doc (termId subject classId name desc scheduleType : string)
    (crns : list string) : json :=
  JObj [("type", JStr "class");
        ("class",
         JObj [("host", JStr "neu.edu"); ("termId", JStr termId);
               ("subject", JStr subject); ("classId", JStr classId);
               ("name", JStr name); ("desc", JStr desc);
               ("scheduleType", JStr scheduleType);
               ("crns", JArr (JStr <$> crns))])].

Definition employee_doc (name : string) (emails : list string) : json :=
  JObj [("type", JStr "employee");
        ("employee",
         JObj [("name", JStr name); ("emails", JArr (JStr <$> emails))])].

Definition cs2500 : json :=
  class_doc "202010" "CS" "2500" "Fundamentals of Computer Science 1"
            "Introduction to computing" "Lecture" ["10460"].

Definition cs2501 : json :=
  class_doc "202010" "CS" "2501" "Lab for Computer Science"
            "Computer science practice" "Lab" ["10461"].

Definition math900 : json :=
  class_doc "202010" "MATH" "900" "Fundamentals of Algebra"
            "Preparation for calculus" "Lecture" ["20001"].

Definition phys1151 : json :=
  class_doc "202010" "PHYS" "1151" "Special Topics 10460"
            "Section 10460 of special topics" "Lecture" ["30002"].

Definition cs2500_summer : json :=
  class_doc "202030" "CS" "2500" "Fundamentals of Computer Science 1"
            "Introduction to computing" "Lecture" ["40460"].

Definition mislove : json :=
  employee_doc "Alan Mislove" ["a.mislove@northeastern.edu"].

Definition catalogue : gmap string json :=
  list_to_map
    [("neu.edu/202010/CS/2500", cs2500);
     ("neu.edu/202010/CS/2501", cs2501);
     ("neu.edu/202010/MATH/900", math900);
     ("neu.edu/202010/PHYS/1151", phys1151);
     ("neu.edu/202030/CS/2500", cs2500_summer);
     ("a.mislove@northeastern.edu", mislove)].

Definition classes : Es.Index :=
  {| Es.latest := catalogue; Es.searchable := catalogue |}.

Definition state : gmap string Es.Index := {[ "classes" := classes ]}.

Definition world : Elastic.World := Elastic.boot state.

Definition scored (score : Z) (d : json) : json :=
  match d with
  | JObj props => JObj (props ++ [("score", JNum score)])
  | _ => d
  end.

(** What [search] answers on the catalogue for a few queries in term
    202010. *)
Definition fundamentals_result : Elastic.SearchResult :=
  {| Elastic.searchContent := [scored 1 cs2500; scored 1 math900];
     Elastic.resultCount := 2;
     Elastic.took := 3 |}.



End Demo.

(** ** CRN queries and schedule types, as the specification words them *)





Definition scheduleType (d : json) : option string :=
  Json.get_string ["class"; "scheduleType"] d.





(** ** Bulk requests in a row *)

(** The requests of one [bulkIndexFromMap] call, a request per batch. *)
Definition index_requests (indexName : string) (map : gmap string json)
  : list Es.BulkRequest :=
  Elastic.index_request indexName map <$> Js.chunk (Js.keys map) 100.

Record Replay := {
  outcome : Es.Result (option Es.BulkResponse);
  final : gmap string Es.Index;
  events : list Elastic.Event
}.

(** Requests sent strictly one after another to the engine: a request is
    sent, the engine settles it, and only then the next one goes out; a
    rejected request ends the run. *)
Fixpoint replay (E : Es.Engine) (st : gmap string Es.Index)
    (last : option Es.BulkResponse) (rs : list Es.BulkRequest) : Replay :=
  match rs with
  | [] => {| outcome := inr last; final := st; events := [] |}
  | r :: rest =>
      match Es.bulk E st r with
      | inr (st', response) =>
          let run := replay E st' (Some response) rest in
          {| outcome := outcome run;
             final := final run;
             events :=
               Elastic.bulk_sent r :: Elastic.bulk_settled r true :: events run |}
      | inl e =>
          {| outcome := inl e;
             final := st;
             events := [Elastic.bulk_sent r; Elastic.bulk_settled r false] |}
      end
  end.


(** The bulk requests a record shows as sent, in order. *)
Definition sent (events : list Elastic.Event) : list Es.BulkRequest :=
  omap (fun e => match e with Elastic.bulk_sent r => Some r | _ => None end)
       events.


(** The documents of [map] under the ids of a batch, written into a store. *)
Definition store_part (map : gmap string json) (part : list string)
    (docs : gmap string json) : gmap string json :=
  foldl (fun m id => <[id := default JNull (map !! id)]> m) docs part.

(** *** A partial update on the catalogue *)

Module Patch.

Definition id : string := "neu.edu/202010/CS/2500".

(** A new name for CS 2500. *)
Definition map : gmap string json :=
  {[ id := JObj [("class", JObj [("name", JStr "Discrete Structures")])] ]}.

(** The same, as a whole document. *)
Definition whole : gmap string json :=
  {[ id := Demo.class_doc "202010" "CS" "2500" "Discrete Structures"
             "Introduction to computing" "Lecture" ["10460"] ]}.

Definition name_of (d : json) : option string :=
  Json.get_string ["class"; "name"] d.

(** An offering of a subject the catalogue does not have. *)
Definition arts : gmap string json :=
  {[ "neu.edu/202010/ARTS/1000" :=
       Demo.class_doc "202010" "ARTS" "1000" "Drawing" "Studio practice"
         "Lecture" ["50001"] ]}.

(** What a search for "discrete" returns in the world a write leaves. *)
Definition found_after (run : Es.Result unit * Elastic.World)
  : Es.Result (list (option string)) :=
  match (Elastic.search Demo.engine "discrete" "202010" 0 10 None run.2).1 with
  | inr r => inr (name_of <$> Elastic.searchContent r)
  | inl e => inl e
  end.

(** What a get by id returns there. *)
Definition stored_after (run : Es.Result unit * Elastic.World)
  : Es.Result (option (option string)) :=
  match (Elastic.getMapFromIDs "classes" [id] run.2).1 with
  | inr result => inr (name_of <$> result !! id)
  | inl e => inl e
  end.

(** [bulkIndexFromMap], its result dropped. *)
Definition index_whole : Es.Result unit * Elastic.World :=
  let run := Elastic.bulkIndexFromMap Demo.engine "classes" whole Demo.world in
  (match run.1 with inr _ => inr tt | inl e => inl e end, run.2).

End Patch.

(** ** Calls in a row *)


(** The searches a record shows. *)
Definition searches (events : list Elastic.Event) : list Es.SearchRequest :=
  omap (fun e => match e with Elastic.search_sent r => Some r | _ => None end)
       events.

(** The aggregation [getSubjectsFromClasses] asks for. *)
Definition subjects_agg : Es.TermsAgg :=
  {| Es.agg_field := "class.subject.keyword"; Es.agg_size := 10000 |}.

(** The set it builds from the documents of an index. *)
Definition subjects_of (i : Es.Index) : gset string :=
  list_to_set
    ((fun subject => Js.toLowerCase (Es.key subject))
       <$> Es.terms_buckets subjects_agg (map_to_list (Es.searchable i)).*2).

(** The numeric reading, restricted to identifiers of one length. *)
Definition tiebreak_numeric_same_length (content : list json) : Prop :=
  forall (i j : nat) di dj a b na nb,
    content !! i = Some di -> content !! j = Some dj ->
    result_score di = result_score dj ->
    class_classId di = Some a -> class_classId dj = Some b ->
    String.length a = String.length b ->
    decimal a = Some na -> decimal b = Some nb ->
    (na < nb)%N -> (i < j)%nat.

(** The laws of a three-way comparison that ranks by a key. *)
Record Lawful {A : Type} (cmp : A -> A -> comparison) : Prop := {
  law_antisym : forall a b, cmp a b = CompOpp (cmp b a);
  law_eq_l : forall a b c, cmp a b = Eq -> cmp a c = cmp b c;
  law_lt_trans : forall a b c, cmp a b = Lt -> cmp b c = Lt -> cmp a c = Lt
}.

(** ** Further engine operations

    What the remaining methods of the class ask of the engine: a search by
    filters alone, a get by id, and the deletion and creation of an index. *)

Module EsOps.

(** [client.search] with [body: { sort, size, query: { bool: { filter } } }]. *)
Record FilterSearch := {
  fs_index : string;
  fs_size : Z;
  fs_sort : list Es.SortKey;
  fs_filter : list Es.FilterClause
}.

(** A [bool] of [filter] clauses alone: every clause has to match. *)
Definition all_match (clauses : list Es.FilterClause) (source : json) : bool :=
  forallb (fun c => Es.filter_matches c source) clauses.

(** Filters do not score: the hits all carry score 0. *)
Definition filtered_hits (clauses : list Es.FilterClause) (i : Es.Index)
  : list Es.Hit :=
  omap (fun doc =>
          if all_match clauses doc.2
          then Some {| Es._id := doc.1; Es._score := 0; Es._source := doc.2 |}
          else None)
       (map_to_list (Es.searchable i)).

(** A field can be sorted on when the index maps it, or when the sort key
    names an [unmapped_type] to fall back on. *)
Definition sortable (mapped : string -> bool) (k : Es.SortKey) : bool :=
  match k with
  | Es.by_score => true
  | Es.by_field _ _ (Some _) => true
  | Es.by_field field _ None => mapped field
  end.

Definition search_filtered (E : Es.Engine) (mapped : string -> bool)
    (st : gmap string Es.Index) (r : FilterSearch) : Es.Result (list Es.Hit) :=
  match st !! fs_index r with
  | None => inl (Es.index_not_found (fs_index r))
  | Some i =>
      if fs_size r <? 0
      then inl (Es.illegal_argument "[size] parameter cannot be negative")
      else if Es.max_result_window E <? fs_size r
      then inl (Es.illegal_argument "Result window is too large")
      else if forallb (sortable mapped) (fs_sort r)
      then
        let keys := match fs_sort r with [] => [Es.by_score] | ks => ks end in
        inr (Es.window 0 (fs_size r)
               (Es.rank keys (filtered_hits (fs_filter r) i)))
      else inl (Es.illegal_argument "No mapping found in order to sort on")
  end.

(** [client.get]: a real-time read of one document; a document that is not
    there is an error of its own. *)
Inductive GetError :=
| get_failed (e : Es.Error)
| not_found (index id : string).

Definition get (st : gmap string Es.Index) (index id : string)
  : GetError + json :=
  match st !! index with
  | None => inl (get_failed (Es.index_not_found index))
  | Some i =>
      match Es.latest i !! id with
      | Some source => inr source
      | None => inl (not_found index id)
      end
  end.

(** [client.indices.delete] *)
Definition indices_delete (st : gmap string Es.Index) (index : string)
  : Es.Result (gmap string Es.Index) :=
  match st !! index with
  | Some _ => inr (delete index st)
  | None => inl (Es.index_not_found index)
  end.

(** [client.indices.create]: refused when the index exists or when the
    engine does not accept the body; the new index holds no document. *)
Definition indices_create (accepts : json -> bool)
    (st : gmap string Es.Index) (index : string) (body : json)
  : Es.Result (gmap string Es.Index) :=
  match st !! index with
  | Some _ => inl (Es.illegal_argument "resource_already_exists_exception")
  | None =>
      if accepts body then inr (<[index := Es.empty_index]> st)
      else inl (Es.illegal_argument "mapper_parsing_exception")
  end.

End EsOps.

(** ** Further methods of the class

    Each of these awaits one client call (two for [resetIndex]) and keeps no
    state of its own: they are functions of the engine state. *)

Module ElasticOps.

Section Methods.

Context (E : Es.Engine).
(** the fields the [classes] index maps *)
Context (mapped : string -> bool).
(** the index bodies the engine accepts *)
Context (accepts : json -> bool).

(** [resetIndex]: the failure of the deletion is swallowed by
    [.catch(() => {})], that of the creation is not. *)
Definition resetIndex (st : gmap string Es.Index) (indexName : string)
    (mapping : json) : Es.Result unit * gmap string Es.Index :=
  let cleared :=
    match EsOps.indices_delete st indexName with
    | inr st' => st'
    | inl _ => st
    end in
  match EsOps.indices_create accepts cleared indexName mapping with
  | inr created => (inr tt, created)
  | inl e => (inl e, cleared)
  end.

(** [get]: the [_source] of the document. *)
Definition get (st : gmap string Es.Index) (indexName id : string)
  : EsOps.GetError + json :=
  EsOps.get st indexName id.

Definition occurrence_filter (host subject classId : string)
  : list Es.FilterClause :=
  [Es.term "class.host.keyword" host;
   Es.term "class.subject.keyword" subject;
   Es.term "class.classId.keyword" classId].

(** [c._source.class]; [None] stands for [undefined]. *)
Definition class_of (c : Es.Hit) : option json :=
  Json.get "class" (Es._source c).

Definition getAllClassOccurrences (self : Elastic.Instance)
    (st : gmap string Es.Index) (host subject classId : string)
  : Es.Result (list (option json)) :=
  match EsOps.search_filtered E mapped st
          {| EsOps.fs_index := Elastic.CLASS_INDEX self;
             EsOps.fs_size := 10;
             EsOps.fs_sort := [];
             EsOps.fs_filter := occurrence_filter host subject classId |} with
  | inr hits => inr (class_of <$> hits)
  | inl e => inl e
  end.

(** [hit ? hit._source.class : null]; [None] stands for [undefined] and
    [Some JNull] for [null]. *)
Definition getLatestClassOccurrence (self : Elastic.Instance)
    (st : gmap string Es.Index) (host subject classId : string)
  : Es.Result (option json) :=
  match EsOps.search_filtered E mapped st
          {| EsOps.fs_index := Elastic.CLASS_INDEX self;
             EsOps.fs_size := 1;
             EsOps.fs_sort := [Es.by_field "class.termId.keyword" Es.desc None];
             EsOps.fs_filter := occurrence_filter host subject classId |} with
  | inr hits =>
      inr (match hits !! 0%nat with
           | Some hit => class_of hit
           | None => Some JNull
           end)
  | inl e => inl e
  end.

End Methods.

End ElasticOps.

(** ** What a write leaves in an index *)

(** The index after whole documents were written over [old] and made
    searchable. *)
Definition upserted (map : gmap string json) (old : option Es.Index) : Es.Index :=
  let docs := map ∪ Es.latest (default Es.empty_index old) in
  {| Es.latest := docs; Es.searchable := docs |}.


(** *** A large map and an engine that refuses short batches *)

Module Load.





End Load.

(** ** Occurrences of a class *)

(** The searchable documents of an index that carry the given host, subject
    and class identifier, as hits. *)
Definition occurrences (i : Es.Index) (host subject classId : string)
  : list Es.Hit :=
  EsOps.filtered_hits (ElasticOps.occurrence_filter host subject classId) i.

(** The string values a class holds under a key. *)
Definition class_field (c : json) (k : string) : list string :=
  match Json.get k c with
  | Some j => Json.strings_of j
  | None => []
  end.

(** The term of an occurrence, as the sort by [class.termId.keyword] reads
    it. *)
Definition occurrence_term (h : Es.Hit) : option string :=
  Es.sort_value "class.termId.keyword" Es.desc h.

(** [t'] does not come after [t]; an occurrence without a term comes before
    every other. *)
Definition term_le (t' t : option string) : Prop :=
  match t', t with
  | Some a, Some b => String.le a b
  | None, _ => True
  | Some _, None => False
  end.

(** * Properties *)

(** Unfolds the steps of a promise down to functions of the world. *)
Ltac promise_steps :=
  unfold mbind, Elastic.promise_bind, mret, Elastic.promise_ret.

(** ** Running [search] *)

Section SearchFacts.

Context (E : Es.Engine).

Lemma search_unfold query termId min max searchFields w :
  Elastic.search E query termId min max searchFields w =
  let r := Elastic.search_request (Elastic.CLASS_INDEX (Elastic.this w))
             query termId min max searchFields in
  (match Es.search E (Elastic.engine w) r with
   | inr out =>
       inr {| Elastic.searchContent := Elastic.with_score <$> Es.hits out;
              Elastic.resultCount := Es.total_value out;
              Elastic.took := Es.took out |}
   | inl e => inl e
   end,
   Elastic.record (Elastic.search_sent r) w).
Proof.
  unfold Elastic.search, Elastic.get_this, Elastic.client_search.
  promise_steps. simpl.
  destruct (Es.search E _ _); reflexivity.
Qed.

Lemma search_fulfilled query termId min max searchFields w i :
  Elastic.engine w !! Elastic.CLASS_INDEX (Elastic.this w) = Some i ->
  valid_window E min max ->
  (Elastic.search E query termId min max searchFields w).1 =
  inr {| Elastic.searchContent :=
           Elastic.with_score <$> search_hits E i query termId min max searchFields;
         Elastic.resultCount :=
           Z.min (Z.of_nat (length (Es.matched_hits E
                    (Es.query (Es.sr_body
                       (Elastic.search_request "" query termId min max searchFields))) i)))
                 (Es.track_total_hits E);
         Elastic.took := Es.latency E |}.
Proof.
  intros Hi (Hmin & Hle & Hmax).
  rewrite search_unfold. cbv zeta. unfold Es.search. simpl. rewrite Hi.
  destruct (Z.ltb_spec min 0) as [?|_]; [lia|].
  destruct (Z.ltb_spec (max - min) 0) as [?|_]; [lia|]. simpl.
  destruct (Z.ltb_spec (Es.max_result_window E) (min + (max - min))) as [?|_];
    [lia|].
  reflexivity.
Qed.

Lemma search_fulfilled_inv query termId min max searchFields w r :
  (Elastic.search E query termId min max searchFields w).1 = inr r ->
  exists i,
    Elastic.engine w !! Elastic.CLASS_INDEX (Elastic.this w) = Some i /\
    valid_window E min max /\
    Elastic.searchContent r =
      Elastic.with_score <$> search_hits E i query termId min max searchFields.
Proof.
  rewrite search_unfold. cbv zeta. unfold Es.search. simpl.
  destruct (Elastic.engine w !! _) as [i|] eqn:Hi; [|discriminate].
  destruct (Z.ltb_spec min 0) as [?|?]; [discriminate|].
  destruct (Z.ltb_spec (max - min) 0) as [?|?]; [discriminate|]. simpl.
  destruct (Z.ltb_spec (Es.max_result_window E) (min + (max - min))) as [?|?];
    [discriminate|].
  intros [= <-]. exists i. simpl. repeat split; try lia. 
Qed.

End SearchFacts.

(** ** What reaches the result list *)

Lemma lookup_assign_ne k k' v props :
  k <> k' -> Json.lookup k (Json.assign k' v props) = Json.lookup k props.
Proof.
  intros Hne. induction props as [|[k0 v0] props IH]; simpl.
  - destruct (String.eqb_spec k k'); congruence.
  - destruct (String.eqb_spec k' k0) as [->|Hk0]; simpl.
    + destruct (String.eqb_spec k k0); congruence.
    + destruct (String.eqb_spec k k0); [reflexivity|apply IH].
Qed.

Lemma lookup_assign_eq k v props :
  Json.lookup k (Json.assign k v props) = Some v.
Proof.
  induction props as [|[k0 v0] props IH]; simpl.
  - by rewrite String.eqb_refl.
  - destruct (String.eqb_spec k k0) as [->|Hk0]; simpl.
    + by rewrite String.eqb_refl.
    + destruct (String.eqb_spec k k0); [congruence|apply IH].
Qed.

(** Adding the score leaves every other property of the source as it is. *)
Lemma get_path_with_score k path h :
  k <> "score" ->
  Json.get_path (k :: path) (Elastic.with_score h) =
  Json.get_path (k :: path) (Es._source h).
Proof.
  intros Hk. unfold Elastic.with_score.
  destruct (Es._source h) as [| | | | |props]; simpl;
    first [ by rewrite lookup_assign_ne
          | destruct (String.eqb_spec k "score"); [congruence|reflexivity] ].
Qed.

Lemma field_values_with_score field k path h :
  Es.field_path field = k :: path -> k <> "score" ->
  Es.field_values field (Elastic.with_score h) =
  Es.field_values field (Es._source h).
Proof.
  intros Hp Hk. unfold Es.field_values. rewrite Hp.
  by rewrite get_path_with_score.
Qed.

Lemma score_with_score h :
  Json.get_num ["score"] (Elastic.with_score h) = Some (Es._score h).
Proof.
  unfold Elastic.with_score, Json.get_num.
  destruct (Es._source h); simpl; try reflexivity.
  by rewrite lookup_assign_eq.
Qed.

Lemma elem_of_window {A} (x : A) from size l :
  x ∈ Es.window from size l -> x ∈ l.
Proof.
  unfold Es.window. intros Hx.
  apply (subseteq_drop (Z.to_nat from)), (subseteq_take (Z.to_nat size)), Hx.
Qed.

Lemma elem_of_rank sort h l : h ∈ Es.rank sort l <-> h ∈ l.
Proof. unfold Es.rank. by rewrite merge_sort_Permutation. Qed.

Lemma elem_of_matched_hits E q i h :
  h ∈ Es.matched_hits E (Some q) i <->
  Es.searchable i !! Es._id h = Some (Es._source h) /\
  Es.query_score E q (Es._source h) = Some (Es._score h).
Proof.
  unfold Es.matched_hits. rewrite list_elem_of_omap. split.
  - intros ([id src] & Hin & Hs). apply elem_of_map_to_list in Hin.
    unfold Es.score_doc in Hs. simpl in Hs.
    destruct (Es.query_score E q src) as [s|] eqn:Hq; simplify_eq/=. done.
  - intros [Hl Hq]. exists (Es._id h, Es._source h). split.
    + by apply elem_of_map_to_list.
    + unfold Es.score_doc. simpl. rewrite Hq. by destruct h.
Qed.

Lemma search_request_query index query termId min max searchFields :
  Es.query (Es.sr_body
    (Elastic.search_request index query termId min max searchFields)) =
  Some {| Es.bq_must := search_must query searchFields;
          Es.bq_filter := search_filter termId |}.
Proof. reflexivity. Qed.

Lemma elem_of_search_hits E i query termId min max searchFields h :
  h ∈ search_hits E i query termId min max searchFields ->
  Es.searchable i !! Es._id h = Some (Es._source h) /\
  Es.filter_matches (search_filter termId) (Es._source h) = true /\
  Es.multi_match_score E (search_must query searchFields) (Es._source h) =
    Some (Es._score h).
Proof.
  unfold search_hits. cbv zeta. rewrite search_request_query. intros Hh.
  apply elem_of_window, elem_of_rank, elem_of_matched_hits in Hh.
  destruct Hh as [Hl Hq]. split; [done|].
  unfold Es.query_score in Hq.
  change (Es.bq_filter _) with (search_filter termId) in Hq.
  change (Es.bq_must _) with (search_must query searchFields) in Hq.
  destruct (Es.filter_matches (search_filter termId) (Es._source h));
    [split; [reflexivity|exact Hq] | discriminate].
Qed.

Lemma has_term_true field value d :
  has_term field value d = true <-> value ∈ Es.field_values field d.
Proof.
  unfold has_term. rewrite existsb_exists. split.
  - intros (x & Hin & Hx). apply String.eqb_eq in Hx as ->.
    by apply list_elem_of_In.
  - intros Hin. exists value. split; [by apply list_elem_of_In|].
    apply String.eqb_refl.
Qed.

Lemma search_filter_eligible termId d :
  Es.filter_matches (search_filter termId) d = eligible termId d.
Proof.
  unfold search_filter, eligible, has_term.
  cbn [Es.filter_matches existsb]. by rewrite orb_false_r.
Qed.

Lemma has_term_scalar field path value s d :
  Es.field_path field = path ->
  Json.get_string path d = Some s ->
  has_term field value d = true <-> s = value.
Proof.
  intros Hp Hs. rewrite has_term_true. unfold Es.field_values. rewrite Hp.
  unfold Json.get_string in Hs.
  destruct (Json.get_path path d) as [[| | |s'| |]|]; simplify_eq/=.
  rewrite list_elem_of_singleton. split; congruence.
Qed.

Lemma has_term_with_score field k path value h :
  Es.field_path field = k :: path -> k <> "score" ->
  has_term field value (Elastic.with_score h) =
  has_term field value (Es._source h).
Proof.
  intros Hp Hk. unfold has_term. by rewrite (field_values_with_score _ k path).
Qed.

Lemma eligible_with_score termId h :
  eligible termId (Elastic.with_score h) = eligible termId (Es._source h).
Proof.
  unfold eligible.
  rewrite (has_term_with_score "class.termId" "class" ["termId"]) by done.
  by rewrite (has_term_with_score "type" "type" []).
Qed.

(** C1.  Every document [search] returns satisfies the either/or rule: it
    holds the requested term, or it is an employee.  A returned document of
    type [class] therefore has the requested [termId]; a document of type
    [employee] passes the filter of every term; and the filter that is sent
    is the disjunction of the two conditions. *)
Theorem search_filter_either_or E query termId min max searchFields w r :
  (Elastic.search E query termId min max searchFields w).1 = inr r ->
  (forall d, d ∈ Elastic.searchContent r ->
     eligible termId d = true /\
     (doc_type d = Some "class" ->
        has_term "class.termId" termId d = true /\
        forall t, class_termId d = Some t -> t = termId)) /\
  (forall index d,
     request_filter
       (Elastic.search_request index query termId min max searchFields) =
       Some (search_filter termId) /\
     Es.filter_matches (search_filter termId) d =
       (has_term "class.termId" termId d || has_term "type" "employee" d)%bool) /\
  (forall d t,
     doc_type d = Some "employee" ->
     Es.filter_matches (search_filter t) d = true).
Proof.
  intros Hr. split; [|split].
  - intros d Hd.
    apply search_fulfilled_inv in Hr as (i & _ & _ & Hc).
    rewrite Hc in Hd. apply list_elem_of_fmap in Hd as (h & -> & Hh).
    apply elem_of_search_hits in Hh as (_ & Hf & _).
    rewrite search_filter_eligible, <- eligible_with_score in Hf.
    split; [exact Hf|]. intros Hclass.
    assert (has_term "class.termId" termId (Elastic.with_score h) = true) as Ht.
    { unfold eligible in Hf. apply orb_true_iff in Hf as [Ht|He]; [exact Ht|].
      apply (has_term_scalar "type" ["type"] _ "class") in He; done. }
    split; [exact Ht|]. intros t Hterm.
    by apply (has_term_scalar "class.termId" ["class"; "termId"] _ t) in Ht.
  - intros index d. split; [reflexivity|]. apply search_filter_eligible.
  - intros d t He. rewrite search_filter_eligible. unfold eligible.
    apply orb_true_iff. right.
    by apply (has_term_scalar "type" ["type"] _ "employee").
Qed.

(** The rule at work on the catalogue: the offering of another term is
    filtered out of the answer to "fundamentals". *)
Lemma search_filter_either_or_witness :
  (Elastic.search Demo.engine "fundamentals" "202010" 0 10 None Demo.world).1
    = inr Demo.fundamentals_result /\
  (forall d, d ∈ Elastic.searchContent Demo.fundamentals_result ->
     eligible "202010" d = true /\
     (doc_type d = Some "class" ->
        has_term "class.termId" "202010" d = true /\
        forall t, class_termId d = Some t -> t = "202010")).
Proof.
  split; [vm_compute; reflexivity|].
  apply (search_filter_either_or Demo.engine "fundamentals" "202010" 0 10 None
           Demo.world Demo.fundamentals_result).
  vm_compute; reflexivity.
Defined.

(** ** The ranking is a total preorder and [rank] sorts by it *)

Lemma lawful_refl {A} (cmp : A -> A -> comparison) a :
  Lawful cmp -> cmp a a = Eq.
Proof.
  intros L. pose proof (law_antisym cmp L a a) as H.
  destruct (cmp a a); simpl in H; congruence.
Qed.

Lemma lawful_eq_r {A} (cmp : A -> A -> comparison) a b c :
  Lawful cmp -> cmp b c = Eq -> cmp a b = cmp a c.
Proof.
  intros L H.
  assert (cmp c b = Eq) as H'.
  { rewrite (law_antisym cmp L), H. reflexivity. }
  rewrite (law_antisym cmp L a b), (law_antisym cmp L a c).
  f_equal. symmetry. by apply law_eq_l.
Qed.

Lemma lawful_lex {A} (c1 c2 : A -> A -> comparison) :
  Lawful c1 -> Lawful c2 ->
  Lawful (fun a b => match c1 a b with Eq => c2 a b | c => c end).
Proof.
  intros L1 L2. split.
  - intros a b. rewrite (law_antisym c1 L1 a b), (law_antisym c2 L2 a b).
    by destruct (c1 b a).
  - intros a b c H.
    destruct (c1 a b) eqn:H1; try discriminate.
    rewrite (law_eq_l c1 L1 a b c H1).
    destruct (c1 b c); [by apply law_eq_l|done..].
  - intros a b c Hab Hbc.
    destruct (c1 a b) eqn:H1; try discriminate.
    + rewrite (law_eq_l c1 L1 a b c H1).
      destruct (c1 b c); [by eapply law_lt_trans|done..].
    + destruct (c1 b c) eqn:H2; try discriminate.
      * by rewrite <- (lawful_eq_r c1 a b c L1 H2), H1.
      * by rewrite (law_lt_trans c1 L1 a b c H1 H2).
Qed.

Lemma lawful_on {A B} (f : A -> B) (cmp : B -> B -> comparison) :
  Lawful cmp -> Lawful (fun a b => cmp (f a) (f b)).
Proof.
  intros L. split; intros.
  - apply (law_antisym cmp L).
  - by apply (law_eq_l cmp L).
  - by eapply (law_lt_trans cmp L).
Qed.

Lemma lawful_flip {A} (cmp : A -> A -> comparison) :
  Lawful cmp -> Lawful (fun a b => cmp b a).
Proof.
  intros L. split; intros.
  - apply (law_antisym cmp L).
  - apply lawful_eq_r; [done|]. by rewrite (law_antisym cmp L), H.
  - by eapply (law_lt_trans cmp L).
Qed.

Lemma lawful_Z : Lawful Z.compare.
Proof.
  split.
  - intros a b. apply Z.compare_antisym.
  - intros a b c H. apply Z.compare_eq in H. by subst.
  - intros a b c H1 H2. rewrite Z.compare_lt_iff in *. lia.
Qed.

Lemma string_compare_refl s : String.compare s s = Eq.
Proof.
  induction s as [|c s IH]; simpl; [done|].
  unfold Ascii.compare. by rewrite N.compare_refl.
Qed.

Lemma string_compare_lt s1 s2 :
  String.compare s1 s2 = Lt <-> String.le s1 s2 /\ s1 <> s2.
Proof.
  unfold String.le, String.leb. split.
  - intros H. rewrite H. split; [done|]. intros ->.
    by rewrite string_compare_refl in H.
  - intros [Hle Hne]. destruct (String.compare s1 s2) eqn:Hc; [|done..].
    by apply String.compare_eq_iff in Hc.
Qed.

Lemma lawful_string : Lawful String.compare.
Proof.
  split.
  - apply String.compare_antisym.
  - intros a b c H. apply String.compare_eq_iff in H. by subst.
  - intros a b c [H1 N1]%string_compare_lt [H2 N2]%string_compare_lt.
    apply string_compare_lt. split; [by etrans|].
    intros ->. apply N1. by apply (anti_symm String.le).
Qed.

Lemma lawful_values order : Lawful (Es.compare_values order).
Proof.
  pose proof lawful_string as L.
  pose proof (lawful_flip _ lawful_string) as L'. simpl in L'.
  split.
  - intros [a|] [b|]; simpl; try done.
    destruct order; [apply (law_antisym _ L)|apply (law_antisym _ L')].
  - intros [a|] [b|] [c|]; simpl; try done.
    destruct order; [apply (law_eq_l _ L)|apply (law_eq_l _ L')].
  - intros [a|] [b|] [c|]; simpl; try done.
    destruct order; [apply (law_lt_trans _ L)|apply (law_lt_trans _ L')].
Qed.

Lemma lawful_key k : Lawful (Es.compare_key k).
Proof.
  destruct k as [|field order u]; simpl.
  - apply (lawful_on Es._score (fun x y => Z.compare y x)).
    apply lawful_flip, lawful_Z.
  - apply (lawful_on (Es.sort_value field order)), lawful_values.
Qed.

Lemma lawful_hits sort : Lawful (Es.compare_hits sort).
Proof.
  induction sort as [|k sort IH].
  - by split.
  - apply (lawful_lex (Es.compare_key k) (Es.compare_hits sort));
      [apply lawful_key|apply IH].
Qed.

#[global] Instance hit_le_total sort : Total (Es.hit_le sort).
Proof.
  intros a b. unfold Es.hit_le, Es.hit_leb.
  rewrite (law_antisym _ (lawful_hits sort) a b).
  destruct (Es.compare_hits sort b a); simpl; auto.
Qed.

#[global] Instance hit_le_trans sort : Transitive (Es.hit_le sort).
Proof.
  pose proof (lawful_hits sort) as L.
  intros a b c. unfold Es.hit_le, Es.hit_leb.
  destruct (Es.compare_hits sort a b) eqn:Hab; [| |done].
  - by rewrite (law_eq_l _ L a b c Hab).
  - destruct (Es.compare_hits sort b c) eqn:Hbc; [| |done].
    + by rewrite <- (lawful_eq_r _ a b c L Hbc), Hab.
    + by rewrite (law_lt_trans _ L a b c Hab Hbc).
Qed.

Lemma rank_sorted sort l : StronglySorted (Es.hit_le sort) (Es.rank sort l).
Proof. apply StronglySorted_merge_sort; apply _. Qed.

(** ** Order of the result list *)

Lemma StronglySorted_lookup_lt {A} (R : relation A) l (i j : nat) x y :
  StronglySorted R l -> l !! i = Some x -> l !! j = Some y -> (i < j)%nat ->
  R x y.
Proof.
  intros Hs. revert i j x y.
  induction Hs as [|z l Hs IH Hall]; intros i j x y Hi Hj Hlt.
  - by rewrite lookup_nil in Hi.
  - destruct j as [|j]; [lia|]. simpl in Hj. destruct i as [|i]; simpl in Hi.
    + simplify_eq. rewrite Forall_forall in Hall. apply Hall.
      by eapply list_elem_of_lookup_2.
    + apply (IH i j); [done..|lia].
Qed.

Lemma window_lookup {A} from size (l : list A) (i : nat) x :
  Es.window from size l !! i = Some x -> l !! (Z.to_nat from + i)%nat = Some x.
Proof.
  unfold Es.window. intros H.
  apply lookup_take_Some in H as [H _]. by rewrite lookup_drop in H.
Qed.

Lemma search_request_sort index query termId min max searchFields :
  Es.sort (Es.sr_body
    (Elastic.search_request index query termId min max searchFields)) =
  search_sort.
Proof. reflexivity. Qed.

(** Two hits at increasing positions of a result are in ranking order. *)
Lemma search_hits_ranked E idx query termId min max searchFields
    (i j : nat) hi hj :
  search_hits E idx query termId min max searchFields !! i = Some hi ->
  search_hits E idx query termId min max searchFields !! j = Some hj ->
  (i < j)%nat ->
  Es.hit_le search_sort hi hj.
Proof.
  unfold search_hits. cbv zeta. rewrite search_request_sort.
  intros Hi%window_lookup Hj%window_lookup Hlt.
  eapply StronglySorted_lookup_lt; [apply rank_sorted|exact Hi|exact Hj|lia].
Qed.

Lemma hit_le_search_sort a b :
  Es.hit_le search_sort a b <->
  Es._score b < Es._score a \/
  (Es._score a = Es._score b /\
   Es.compare_values Es.asc
     (Es.sort_value "class.classId.keyword" Es.asc a)
     (Es.sort_value "class.classId.keyword" Es.asc b) <> Gt).
Proof.
  unfold Es.hit_le, Es.hit_leb, search_sort.
  cbn [Es.compare_hits Es.compare_key].
  destruct (Z.compare_spec (Es._score b) (Es._score a)) as [Heq|Hlt|Hgt].
  - destruct (Es.compare_values _ _ _); split; try done;
      try (intros _; right; split; done); intros [?|[? ?]]; done || lia.
  - split; [intros _; by left|done].
  - split; [done|]. intros [?|[? ?]]; lia.
Qed.

Lemma sort_value_scalar a h :
  class_classId (Elastic.with_score h) = Some a ->
  Es.sort_value "class.classId.keyword" Es.asc h = Some a.
Proof.
  unfold class_classId, Json.get_string, Es.sort_value, Es.field_values.
  change (Es.field_path "class.classId.keyword") with ["class"; "classId"].
  rewrite get_path_with_score by done.
  destruct (Json.get_path _ _) as [[| | |s| |]|]; intros; simplify_eq/=. done.
Qed.

Lemma search_content_lookup E idx query termId min max searchFields
    (i : nat) d :
  (Elastic.with_score <$> search_hits E idx query termId min max searchFields)
    !! i = Some d ->
  exists h,
    search_hits E idx query termId min max searchFields !! i = Some h /\
    d = Elastic.with_score h /\ result_score d = Some (Es._score h).
Proof.
  rewrite list_lookup_fmap. intros H.
  destruct (search_hits _ _ _ _ _ _ _ !! i) as [h|]; simplify_eq/=.
  exists h. repeat split. apply score_with_score.
Qed.

Lemma search_scores_descend E query termId min max searchFields w r :
  (Elastic.search E query termId min max searchFields w).1 = inr r ->
  score_descending (Elastic.searchContent r).
Proof.
  intros Hr. apply search_fulfilled_inv in Hr as (idx & _ & _ & ->).
  intros i j di dj Hi Hj Hlt.
  apply search_content_lookup in Hi as (hi & Hi & -> & Hsi).
  apply search_content_lookup in Hj as (hj & Hj & -> & Hsj).
  exists (Es._score hi), (Es._score hj). repeat split; [done..|].
  pose proof (search_hits_ranked _ _ _ _ _ _ _ _ _ _ _ Hi Hj Hlt) as Hle.
  apply hit_le_search_sort in Hle. lia.
Qed.

(** *** Keyword order and numeric order

    On digit strings of one length the byte-wise order is the numeric
    order. *)

Lemma is_nat_digit c d :
  Ascii.is_nat c = Some d -> c = ascii_of_nat (48 + d) /\ (d < 10)%nat.
Proof.
  destruct c as [[] [] [] [] [] [] [] []]; simpl; intros [= <-];
    split; reflexivity || lia.
Qed.

Lemma digit_compare c1 c2 d1 d2 :
  Ascii.is_nat c1 = Some d1 -> Ascii.is_nat c2 = Some d2 ->
  Ascii.compare c1 c2 = Nat.compare d1 d2.
Proof.
  intros [-> H1]%is_nat_digit [-> H2]%is_nat_digit.
  destruct d1 as [|[|[|[|[|[|[|[|[|[|d1]]]]]]]]]]; [..|lia];
    destruct d2 as [|[|[|[|[|[|[|[|[|[|d2]]]]]]]]]]; try lia; reflexivity.
Qed.

Lemma decimal_from_shift s acc k n :
  decimal_from acc s = Some n ->
  decimal_from (acc + k) s = Some (n + k * 10 ^ N.of_nat (String.length s))%N.
Proof.
  revert acc k n. induction s as [|c s IH]; intros acc k n.
  - cbn [decimal_from String.length]. intros [= <-]. f_equal. simpl. lia.
  - cbn [decimal_from String.length]. destruct (Ascii.is_nat c) as [d|]; [|done].
    intros H. apply (IH _ (10 * k)%N) in H.
    replace (10 * (acc + k) + N.of_nat d)%N
      with (10 * acc + N.of_nat d + 10 * k)%N by lia.
    rewrite H. f_equal. rewrite Nat2N.inj_succ, N.pow_succ_r'. lia.
Qed.

Lemma decimal_from_bound s acc n :
  decimal_from acc s = Some n ->
  (n < (acc + 1) * 10 ^ N.of_nat (String.length s))%N.
Proof.
  revert acc n. induction s as [|c s IH]; intros acc n.
  - cbn [decimal_from String.length]. intros [= <-]. simpl. lia.
  - cbn [decimal_from String.length].
    destruct (Ascii.is_nat c) as [d|] eqn:Hd; [|done].
    intros H%IH. apply is_nat_digit in Hd as [_ Hd].
    rewrite Nat2N.inj_succ, N.pow_succ_r'. nia.
Qed.

Lemma decimal_from_zero s acc n :
  decimal_from acc s = Some n -> exists v, decimal_from 0 s = Some v.
Proof.
  revert acc n. induction s as [|c s IH]; intros acc n.
  - by exists 0%N.
  - cbn [decimal_from]. destruct (Ascii.is_nat c) as [d|]; [|done].
    intros [v Hv]%IH.
    apply (decimal_from_shift _ _ (10 * 0 + N.of_nat d)) in Hv. by eexists.
Qed.

Lemma decimal_from_compare a b na nb :
  String.length a = String.length b ->
  decimal_from 0 a = Some na -> decimal_from 0 b = Some nb ->
  String.compare a b = N.compare na nb.
Proof.
  revert b na nb. induction a as [|c1 a IH]; intros [|c2 b] na nb Hlen;
    try discriminate.
  - by intros [= <-] [= <-].
  - cbn [decimal_from String.compare].
    destruct (Ascii.is_nat c1) as [d1|] eqn:H1; [|done].
    destruct (Ascii.is_nat c2) as [d2|] eqn:H2; [|done].
    rewrite (digit_compare c1 c2 d1 d2 H1 H2). intros Ha Hb.
    destruct (decimal_from_zero _ _ _ Ha) as [v1 Hv1].
    destruct (decimal_from_zero _ _ _ Hb) as [v2 Hv2].
    pose proof (decimal_from_shift _ _ (10 * 0 + N.of_nat d1) _ Hv1) as Ha'.
    pose proof (decimal_from_shift _ _ (10 * 0 + N.of_nat d2) _ Hv2) as Hb'.
    rewrite N.add_0_l in Ha', Hb'. rewrite Ha in Ha'. rewrite Hb in Hb'.
    injection Ha' as ->. injection Hb' as ->.
    apply decimal_from_bound in Hv1 as B1. apply decimal_from_bound in Hv2 as B2.
    injection Hlen as Hlen. rewrite <- Hlen in *.
    rewrite (IH b v1 v2 Hlen Hv1 Hv2).
    set (P := (10 ^ N.of_nat (String.length a))%N) in *.
    destruct (Nat.compare_spec d1 d2) as [->|Hlt|Hgt].
    + destruct (N.compare_spec v1 v2); symmetry;
        [apply N.compare_eq_iff|apply N.compare_lt_iff|apply N.compare_gt_iff];
        lia.
    + symmetry. apply N.compare_lt_iff. nia.
    + symmetry. apply N.compare_gt_iff. nia.
Qed.

Lemma decimal_compare a b na nb :
  String.length a = String.length b ->
  decimal a = Some na -> decimal b = Some nb ->
  String.compare a b = N.compare na nb.
Proof.
  intros Hlen Ha Hb. apply decimal_from_compare; [done| |].
  - by destruct a.
  - by destruct b.
Qed.

(** C2, as the code has it.  Down the result list scores never increase,
    and of two documents with equal score the one whose [classId] is
    smaller as a keyword, that is byte-wise as a string, comes first.  For
    identifiers of the same number of digits this is the numeric order. *)
Theorem search_tiebreak_keyword E query termId min max searchFields w r :
  (Elastic.search E query termId min max searchFields w).1 = inr r ->
  score_descending (Elastic.searchContent r) /\
  tiebreak_keyword (Elastic.searchContent r) /\
  tiebreak_numeric_same_length (Elastic.searchContent r).
Proof.
  intros Hr. split; [by eapply search_scores_descend|].
  apply search_fulfilled_inv in Hr as (idx & _ & _ & ->).
  assert (tiebreak_keyword
            (Elastic.with_score
               <$> search_hits E idx query termId min max searchFields)) as Hkey;
    [|split; [exact Hkey|]].
  2:{ intros i j di dj a b na nb Hi Hj Hs Ha Hb Hlen Hna Hnb Hlt.
      apply (Hkey i j di dj a b); try done.
      unfold String.ltb. rewrite (decimal_compare a b na nb) by done.
      by apply N.compare_lt_iff in Hlt as ->. }
  - intros i j di dj a b Hi Hj Hs Ha Hb Hab.
    apply search_content_lookup in Hi as (hi & Hi & -> & Hsi).
    apply search_content_lookup in Hj as (hj & Hj & -> & Hsj).
    rewrite Hsi, Hsj in Hs. injection Hs as Hs.
    apply sort_value_scalar in Ha, Hb.
    unfold String.ltb in Hab.
    destruct (String.compare a b) eqn:Hc; try discriminate.
    destruct (Nat.lt_trichotomy i j) as [?|[->|Hgt]]; [done| |].
    + rewrite Hi in Hj. simplify_eq.
      by rewrite string_compare_refl in Hc.
    + pose proof (search_hits_ranked _ _ _ _ _ _ _ _ _ _ _ Hj Hi Hgt) as Hle.
      apply hit_le_search_sort in Hle as [?|[_ Hle]]; [lia|].
      rewrite Ha, Hb in Hle. simpl in Hle.
      rewrite String.compare_antisym, Hc in Hle. done.
Qed.

(** C2 as stated fails: "fundamentals" scores CS 2500 and MATH 900 alike,
    and the answer lists class 2500 before class 900. *)
Lemma search_tiebreak_numeric_fails :
  (Elastic.search Demo.engine "fundamentals" "202010" 0 10 None Demo.world).1
    = inr Demo.fundamentals_result /\
  ~ tiebreak_numeric (Elastic.searchContent Demo.fundamentals_result).
Proof.
  split; [vm_compute; reflexivity|].
  intros H.
  specialize (H 1%nat 0%nat (Demo.scored 1 Demo.math900)
                (Demo.scored 1 Demo.cs2500) "900" "2500" 900%N 2500%N).
  assert (1 < 0)%nat; [|lia].
  apply H; reflexivity.
Qed.

Lemma search_tiebreak_keyword_witness :
  (Elastic.search Demo.engine "fundamentals" "202010" 0 10 None Demo.world).1
    = inr Demo.fundamentals_result /\
  score_descending (Elastic.searchContent Demo.fundamentals_result) /\
  tiebreak_keyword (Elastic.searchContent Demo.fundamentals_result) /\
  tiebreak_numeric_same_length (Elastic.searchContent Demo.fundamentals_result).
Proof.
  split; [vm_compute; reflexivity|].
  apply (search_tiebreak_keyword Demo.engine "fundamentals" "202010" 0 10 None
           Demo.world Demo.fundamentals_result).
  vm_compute; reflexivity.
Defined.

(** ** The empty query *)








(** ** CRN-shaped queries *)


Lemma search_log E query termId min max searchFields w :
  Elastic.log (Elastic.search E query termId min max searchFields w).2 =
  (Elastic.log w ++
   [Elastic.search_sent
      (Elastic.search_request (Elastic.CLASS_INDEX (Elastic.this w))
         query termId min max searchFields)])%list.
Proof. by rewrite search_unfold. Qed.




(** ** Which index [search] reads *)

Lemma search_reads_class_index E query termId min max searchFields w1 w2 :
  Elastic.this w1 = Elastic.this w2 ->
  Elastic.engine w1 !! Elastic.CLASS_INDEX (Elastic.this w1) =
  Elastic.engine w2 !! Elastic.CLASS_INDEX (Elastic.this w1) ->
  (Elastic.search E query termId min max searchFields w1).1 =
  (Elastic.search E query termId min max searchFields w2).1.
Proof.
  intros Hthis Hidx. rewrite !search_unfold. cbv zeta. cbn [fst].
  rewrite <- Hthis. unfold Es.search.
  cbn [Es.sr_index Elastic.search_request]. by rewrite Hidx.
Qed.

(** C10.  With the instance as its constructor set it up, a [search] call
    sends exactly one request, to the index named [classes], never to
    [employees]; its answer does not change when the [employees] index is
    replaced or dropped; and every document it returns, employees included,
    is one stored in the [classes] index. *)
Theorem search_only_classes_index E query termId min max searchFields w :
  Elastic.CLASS_INDEX (Elastic.this w) = "classes" ->
  Elastic.EMPLOYEE_INDEX (Elastic.this w) = "employees" ->
  (exists r,
     Elastic.log (Elastic.search E query termId min max searchFields w).2 =
       (Elastic.log w ++ [Elastic.search_sent r])%list /\
     Es.sr_index r = "classes" /\
     Es.sr_index r <> Elastic.EMPLOYEE_INDEX (Elastic.this w)) /\
  (forall employees,
     (Elastic.search E query termId min max searchFields
        (Elastic.with_engine (<["employees" := employees]> (Elastic.engine w)) w)).1 =
     (Elastic.search E query termId min max searchFields w).1) /\
  (Elastic.search E query termId min max searchFields
     (Elastic.with_engine (delete "employees" (Elastic.engine w)) w)).1 =
  (Elastic.search E query termId min max searchFields w).1 /\
  (forall r d,
     (Elastic.search E query termId min max searchFields w).1 = inr r ->
     d ∈ Elastic.searchContent r ->
     exists i h,
       Elastic.engine w !! "classes" = Some i /\
       Es.searchable i !! Es._id h = Some (Es._source h) /\
       d = Elastic.with_score h).
Proof.
  intros Hc He. split; [|split; [|split]].
  - eexists. split; [apply search_log|]. rewrite Hc, He. split; done.
  - intros employees. apply search_reads_class_index; [done|].
    cbn [Elastic.this Elastic.with_engine Elastic.engine]. rewrite Hc.
    by rewrite lookup_insert_ne.
  - apply search_reads_class_index; [done|].
    cbn [Elastic.this Elastic.with_engine Elastic.engine]. rewrite Hc.
    by rewrite lookup_delete_ne.
  - intros r d Hr Hd. apply search_fulfilled_inv in Hr as (i & Hi & _ & Hcont).
    rewrite Hcont in Hd. apply list_elem_of_fmap in Hd as (h & -> & Hh).
    apply elem_of_search_hits in Hh as (Hl & _ & _).
    exists i, h. by rewrite <- Hc.
Qed.

Lemma search_only_classes_index_witness :
  Elastic.CLASS_INDEX (Elastic.this Demo.world) = "classes" /\
  Elastic.EMPLOYEE_INDEX (Elastic.this Demo.world) = "employees" /\
  (forall employees,
     (Elastic.search Demo.engine "mislove" "202010" 0 10 None
        (Elastic.with_engine
           (<["employees" := employees]> (Elastic.engine Demo.world))
           Demo.world)).1 =
     (Elastic.search Demo.engine "mislove" "202010" 0 10 None Demo.world).1).
Proof.
  split; [reflexivity|]. split; [reflexivity|].
  apply (search_only_classes_index Demo.engine "mislove" "202010" 0 10 None
           Demo.world); reflexivity.
Defined.

(** ** Schedule types and the top hit *)





(** ** [getMapFromIDs] *)

Lemma getMapFromIDs_unfold indexName ids w :
  Elastic.getMapFromIDs indexName ids w =
  let r := {| Es.mget_index := indexName; Es.ids := ids |} in
  (match Es.mget (Elastic.engine w) r with
   | inr got => inr (foldl Elastic.collect_found ∅ got)
   | inl e => inl e
   end,
   Elastic.record (Elastic.mget_sent r) w).
Proof.
  unfold Elastic.getMapFromIDs, Elastic.client_mget.
  promise_steps. cbv zeta.
  destruct (Es.mget _ _); reflexivity.
Qed.

(** Folding the response over an accumulator: a requested id that is stored
    gets its source, every other key keeps what the accumulator had. *)
Lemma collect_found_lookup (i : Es.Index) (ids : list string)
    (acc : gmap string json) (id : string) :
  foldl Elastic.collect_found acc (Es.mget_doc i <$> ids) !! id =
  match (if decide (id ∈ ids) then Es.latest i !! id else None) with
  | Some source => Some source
  | None => acc !! id
  end.
Proof.
  revert acc. induction ids as [|id' ids IH]; intros acc.
  - cbn [fmap list_fmap foldl].
    destruct (decide (id ∈ [])) as [Hin|_]; [by apply not_elem_of_nil in Hin|done].
  - cbn [fmap list_fmap foldl]. rewrite IH. unfold Es.mget_doc.
    destruct (decide (id ∈ ids)) as [Hin|Hout].
    + rewrite decide_True by (by right).
      destruct (Es.latest i !! id) as [src|] eqn:Hid; [done|].
      destruct (Es.latest i !! id') as [src'|] eqn:Hid'; simpl; [|done].
      apply lookup_insert_ne. congruence.
    + destruct (decide (id = id')) as [->|Hne].
      * rewrite decide_True by (by left).
        destruct (Es.latest i !! id') as [src'|]; simpl; [|done].
        by rewrite lookup_insert_eq.
      * rewrite decide_False by (rewrite elem_of_cons; tauto).
        destruct (Es.latest i !! id') as [src'|]; simpl; [|done].
        by rewrite lookup_insert_ne.
Qed.



(** ** Batches of [bulkIndexFromMap] *)

Lemma chunk_concat_take {A} (l : list A) (n k : nat) :
  concat ((fun i => take n (drop (i * n) l)) <$> seq 0 k) = take (k * n) l.
Proof.
  induction k as [|k IH]; [done|].
  rewrite seq_S, fmap_app, concat_app, IH. cbn [fmap list_fmap concat].
  rewrite app_nil_r, Nat.add_0_l, take_take_drop. f_equal. lia.
Qed.

Lemma chunk_count_covers (len n : nat) :
  (0 < n)%nat -> (len <= (len + n - 1) / n * n)%nat.
Proof.
  intros Hn.
  pose proof (Nat.div_mod_eq (len + n - 1) n) as Hd.
  pose proof (Nat.mod_upper_bound (len + n - 1) n) as Hm. nia.
Qed.

Lemma chunk_count_tight (len n i : nat) :
  (0 < n)%nat -> (i < (len + n - 1) / n)%nat -> (i * n < len)%nat.
Proof.
  intros Hn Hi.
  pose proof (Nat.div_mod_eq (len + n - 1) n) as Hd.
  pose proof (Nat.mod_upper_bound (len + n - 1) n) as Hm. nia.
Qed.

Lemma chunk_concat {A} (l : list A) (n : nat) :
  (0 < n)%nat -> concat (Js.chunk l n) = l.
Proof.
  intros Hn. unfold Js.chunk. destruct n as [|n]; [lia|].
  rewrite chunk_concat_take. apply take_ge.
  apply chunk_count_covers. lia.
Qed.

Lemma chunk_sizes {A} (l : list A) (n : nat) :
  Forall (fun part => 0 < length part <= n)%nat (Js.chunk l n).
Proof.
  unfold Js.chunk. destruct n as [|n]; [constructor|].
  apply Forall_fmap, Forall_forall. intros i Hi.
  apply elem_of_seq in Hi as [_ Hi]. simpl in Hi.
  pose proof (chunk_count_tight (length l) (S n) i ltac:(lia) Hi).
  unfold compose. rewrite length_take, length_drop. lia.
Qed.

Lemma keys_spec {V} (map : gmap string V) :
  NoDup (Js.keys map) /\ forall id, id ∈ Js.keys map <-> is_Some (map !! id).
Proof.
  unfold Js.keys. split; [apply NoDup_fst_map_to_list|].
  intros id. rewrite list_elem_of_fmap. split.
  - intros ([id' v] & -> & Hin). apply elem_of_map_to_list in Hin. by eexists.
  - intros [v Hv]. exists (id, v). split; [done|]. by apply elem_of_map_to_list.
Qed.

(** The promise chain of [bulkIndexFromMap] runs the batches as [replay]
    does. *)
Lemma chain_replay E indexName (map : gmap string json) parts
    (p : Elastic.Promise (option Es.BulkResponse)) w :
  foldl (fun promises part =>
           _ ← promises;
           response ← Elastic.client_bulk E
                        (Elastic.index_request indexName map part);
           mret (Some response)) p parts w =
  match p w with
  | (inr last, w1) =>
      let run := replay E (Elastic.engine w1) last
                   (Elastic.index_request indexName map <$> parts) in
      (outcome run,
       {| Elastic.engine := final run; Elastic.sets := Elastic.sets w1;
          Elastic.this := Elastic.this w1;
          Elastic.log := Elastic.log w1 ++ events run |})
  | (inl e, w1) => (inl e, w1)
  end.
Proof.
  revert p. induction parts as [|part parts IH]; intros p.
  - cbn [foldl fmap list_fmap replay]. destruct (p w) as [[e|last] w1]; [done|].
    cbv zeta. cbn [outcome final events]. rewrite app_nil_r. by destruct w1.
  - cbn [foldl]. rewrite IH. clear IH.
    unfold mbind at 1 2, Elastic.promise_bind at 1 2.
    destruct (p w) as [[e|last] w1]; [done|].
    cbn [fmap list_fmap replay].
    unfold Elastic.client_bulk, mret, Elastic.promise_ret. cbv zeta.
    cbn [Elastic.engine Elastic.record].
    destruct (Es.bulk E (Elastic.engine w1) _) as [e|[st response]].
    + unfold Elastic.record.
      cbn [outcome final events Elastic.log Elastic.sets Elastic.this
           Elastic.engine].
      by rewrite <- app_assoc.
    + unfold Elastic.record, Elastic.with_engine. cbv zeta.
      cbn [outcome final events Elastic.log Elastic.sets Elastic.this
           Elastic.engine].
      by rewrite <- !app_assoc.
Qed.

Lemma bulkIndexFromMap_replay E indexName (map : gmap string json) w :
  Elastic.bulkIndexFromMap E indexName map w =
  let run := replay E (Elastic.engine w) None (index_requests indexName map) in
  (outcome run,
   {| Elastic.engine := final run; Elastic.sets := Elastic.sets w;
      Elastic.this := Elastic.this w;
      Elastic.log := Elastic.log w ++ events run |}).
Proof.
  unfold Elastic.bulkIndexFromMap. rewrite chain_replay. reflexivity.
Qed.




Lemma parse_index_lines (map : gmap string json) part :
  Es.parse_bulk (Elastic.index_lines map part) =
  Some ((fun id => Es.op_index id (default JNull (map !! id))) <$> part).
Proof.
  induction part as [|id part IH]; [done|].
  unfold Elastic.index_lines in *. cbn [flat_map app Es.parse_bulk].
  rewrite IH. reflexivity.
Qed.

Lemma apply_index_ops (map : gmap string json) part docs flag :
  foldl Es.apply_op (docs, flag)
    ((fun id => Es.op_index id (default JNull (map !! id))) <$> part) =
  (store_part map part docs, flag).
Proof.
  revert docs. induction part as [|id part IH]; intros docs; [done|].
  cbn [fmap list_fmap foldl Es.apply_op fst snd]. apply IH.
Qed.


(** The engine's answer to the request of one batch. *)
Lemma bulk_index_request E st indexName (map : gmap string json) part :
  Es.bulk_rejected E (Elastic.index_request indexName map part) = false ->
  part <> [] ->
  Es.bulk E st (Elastic.index_request indexName map part) =
  inr (<[indexName :=
          let docs :=
            store_part map part (Es.latest (default Es.empty_index (st !! indexName)))
          in {| Es.latest := docs; Es.searchable := docs |}]> st,
       {| Es.errors := false |}).
Proof.
  intros Hok Hne. unfold Es.bulk. rewrite Hok.
  cbn [Elastic.index_request Es.bulk_body Es.bulk_index Es.refresh].
  rewrite parse_index_lines.
  destruct ((fun id => Es.op_index id (default JNull (map !! id))) <$> part)
    as [|op ops] eqn:Hops.
  { by apply fmap_nil_inv in Hops. }
  rewrite <- Hops. cbv zeta. rewrite apply_index_ops. reflexivity.
Qed.

Lemma replay_fulfilled E st last indexName (map : gmap string json) parts :
  (forall part, part ∈ parts ->
     Es.bulk_rejected E (Elastic.index_request indexName map part) = false) ->
  Forall (fun part => part <> []) parts ->
  exists v,
    outcome (replay E st last (Elastic.index_request indexName map <$> parts))
    = inr v.
Proof.
  revert st last. induction parts as [|part parts IH]; intros st last Hok Hne.
  - by eexists.
  - cbn [fmap list_fmap replay].
    rewrite bulk_index_request; [|apply Hok; by left|by inversion Hne].
    cbn [outcome]. apply IH; [|by inversion Hne].
    intros p Hp. apply Hok. by right.
Qed.


(** A thousand ids make ten batches of a hundred; one more makes an
    eleventh batch of one. *)
Example chunk_1001 :
  length <$> Js.chunk (seq 0 1001) 100 =
  [100; 100; 100; 100; 100; 100; 100; 100; 100; 100; 1]%nat.
Proof. vm_compute. reflexivity. Qed.


(** ** Visibility of writes *)

Lemma store_part_lookup (map : gmap string json) part docs id :
  store_part map part docs !! id =
  if decide (id ∈ part) then Some (default JNull (map !! id)) else docs !! id.
Proof.
  unfold store_part. revert docs.
  induction part as [|id' part IH]; intros docs.
  - cbn [foldl]. destruct (decide (id ∈ [])) as [H|_]; [|done].
    by apply not_elem_of_nil in H.
  - cbn [foldl]. rewrite IH.
    destruct (decide (id ∈ part)) as [Hin|Hout].
    + by rewrite decide_True by (by right).
    + destruct (decide (id = id')) as [->|Hne].
      * rewrite decide_True by (by left). by rewrite lookup_insert_eq.
      * rewrite decide_False by (rewrite elem_of_cons; tauto).
        by rewrite lookup_insert_ne.
Qed.

Lemma store_part_app (map : gmap string json) p1 p2 docs :
  store_part map (p1 ++ p2) docs = store_part map p2 (store_part map p1 docs).
Proof. unfold store_part. apply foldl_app. Qed.

(** After the batches are written, the index holds them all, in its
    searchable view as in its latest one. *)
Lemma replay_final_index E st last indexName (map : gmap string json) part parts :
  (forall p, p ∈ part :: parts ->
     Es.bulk_rejected E (Elastic.index_request indexName map p) = false) ->
  Forall (fun p => p <> []) (part :: parts) ->
  final (replay E st last
           (Elastic.index_request indexName map <$> part :: parts))
    !! indexName =
  Some (let docs :=
          store_part map (concat (part :: parts))
            (Es.latest (default Es.empty_index (st !! indexName)))
        in {| Es.latest := docs; Es.searchable := docs |}).
Proof.
  revert st last part. induction parts as [|part' parts IH];
    intros st last part Hok Hne.
  - cbn [fmap list_fmap replay].
    rewrite bulk_index_request; [|apply Hok; by left|by inversion Hne].
    cbn [replay final concat]. rewrite app_nil_r. apply lookup_insert_eq.
  - rewrite fmap_cons. cbn [replay].
    rewrite bulk_index_request; [|apply Hok; by left|by inversion Hne].
    cbn [final].
    rewrite IH; [|intros p Hp; apply Hok; by right|by inversion Hne].
    rewrite lookup_insert_eq. cbv zeta. cbn [default Es.latest concat].
    by rewrite (store_part_app map part).
Qed.

(** Whole documents written by [bulkIndexFromMap] can be searched as soon as
    the call is fulfilled. *)
Lemma bulkIndexFromMap_visible E indexName (map : gmap string json) w id source :
  (forall r, r ∈ index_requests indexName map -> Es.bulk_rejected E r = false) ->
  map !! id = Some source ->
  Forall (fun r => Es.refresh r = Some Es.wait_for) (index_requests indexName map) /\
  exists i,
    Elastic.engine (Elastic.bulkIndexFromMap E indexName map w).2 !! indexName
      = Some i /\
    Es.searchable i !! id = Some source /\ Es.latest i !! id = Some source.
Proof.
  intros Hok Hid. split.
  { unfold index_requests. by apply Forall_fmap, Forall_true. }
  rewrite bulkIndexFromMap_replay. cbv zeta. cbn [snd Elastic.engine].
  unfold index_requests in *.
  pose proof (chunk_concat (Js.keys map) 100 ltac:(lia)) as Hcat.
  pose proof (chunk_sizes (Js.keys map) 100) as Hsz.
  assert (id ∈ Js.keys map) as Hin by (apply keys_spec; by eexists).
  destruct (Js.chunk (Js.keys map) 100) as [|part parts].
  { rewrite <- Hcat in Hin. by apply not_elem_of_nil in Hin. }
  rewrite replay_final_index.
  - eexists. split; [reflexivity|]. cbv zeta. cbn [Es.searchable Es.latest].
    rewrite store_part_lookup, Hcat, decide_True, Hid by done. done.
  - intros p Hp. apply Hok, list_elem_of_fmap. by exists p.
  - eapply Forall_impl; [exact Hsz|]. intros p Hp ->. simpl in Hp. lia.
Qed.

(** A partial update is sent without [refresh]: what a search reads of the
    index is the same after the call as before it. *)
Lemma bulkUpdateFromMap_not_visible E indexName (map : gmap string json) w i :
  Elastic.engine w !! indexName = Some i ->
  Es.refresh (Elastic.update_request indexName map) = None /\
  Elastic.log (Elastic.bulkUpdateFromMap E indexName map w).2 =
    (Elastic.log w ++
     [Elastic.bulk_sent (Elastic.update_request indexName map);
      Elastic.bulk_settled (Elastic.update_request indexName map)
        (bool_decide (is_Some
           (match (Elastic.bulkUpdateFromMap E indexName map w).1 with
            | inr _ => Some () | inl _ => None end)))])%list /\
  exists i',
    Elastic.engine (Elastic.bulkUpdateFromMap E indexName map w).2 !! indexName
      = Some i' /\
    Es.searchable i' = Es.searchable i.
Proof.
  intros Hi. split; [reflexivity|].
  unfold Elastic.bulkUpdateFromMap, Elastic.client_bulk.
  promise_steps. cbv zeta.
  unfold Es.bulk.
  destruct (Es.bulk_rejected E _).
  { unfold Elastic.record. cbn [fst snd Elastic.log Elastic.engine].
    split; [by rewrite <- app_assoc|]. by exists i. }
  destruct (Es.parse_bulk _) as [[|op ops]|].
  - unfold Elastic.record. cbn [fst snd Elastic.log Elastic.engine].
    split; [by rewrite <- app_assoc|]. by exists i.
  - unfold Elastic.record, Elastic.with_engine. cbv zeta.
    cbn [fst snd Elastic.log Elastic.engine Elastic.update_request
         Es.bulk_index Es.refresh Es.is_visible].
    split; [by rewrite <- app_assoc|].
    rewrite Hi. cbn [default]. rewrite lookup_insert_eq. by eexists.
  - unfold Elastic.record. cbn [fst snd Elastic.log Elastic.engine].
    split; [by rewrite <- app_assoc|]. by exists i.
Qed.

(** C3 at work.  Renaming CS 2500 through [bulkUpdateFromMap] is sent
    without [refresh]: the call is fulfilled and a get by id reads the new
    name, but a search for it right after the call finds nothing.  The same
    change written through [bulkIndexFromMap], which sends
    [refresh: 'wait_for'], is found at once. *)
Theorem bulk_update_not_searchable :
  let update := Elastic.bulkUpdateFromMap Demo.engine "classes" Patch.map Demo.world in
  Es.refresh (Elastic.update_request "classes" Patch.map) = None /\
  update.1 = inr tt /\
  Patch.stored_after update = inr (Some (Some "Discrete Structures")) /\
  Patch.found_after update = inr [] /\
  Forall (fun r => Es.refresh r = Some Es.wait_for)
         (index_requests "classes" Patch.whole) /\
  Patch.index_whole.1 = inr tt /\
  Patch.found_after Patch.index_whole = inr [Some "Discrete Structures"].
Proof.
  cbv zeta. split; [reflexivity|].
  split; [vm_compute; reflexivity|]. split; [vm_compute; reflexivity|].
  split; [vm_compute; reflexivity|].
  split; [unfold index_requests; by apply Forall_fmap, Forall_true|].
  split; vm_compute; reflexivity.
Qed.

(** ** The subject cache *)

Lemma getSubjects_cached E w set :
  Elastic.subjects (Elastic.this w) = Some set ->
  Elastic.getSubjectsFromClasses E w = (inr set, w).
Proof.
  intros H. unfold Elastic.getSubjectsFromClasses, Elastic.get_this.
  unfold mbind, Elastic.promise_bind. by rewrite H.
Qed.

Lemma getSubjects_computed E w i :
  Elastic.subjects (Elastic.this w) = None ->
  Elastic.engine w !! Elastic.CLASS_INDEX (Elastic.this w) = Some i ->
  10 <= Es.max_result_window E ->
  Elastic.getSubjectsFromClasses E w =
  (inr (length (Elastic.sets w)),
   {| Elastic.engine := Elastic.engine w;
      Elastic.sets := Elastic.sets w ++ [subjects_of i];
      Elastic.this :=
        {| Elastic.CLASS_INDEX := Elastic.CLASS_INDEX (Elastic.this w);
           Elastic.EMPLOYEE_INDEX := Elastic.EMPLOYEE_INDEX (Elastic.this w);
           Elastic.subjects := Some (length (Elastic.sets w)) |};
      Elastic.log :=
        Elastic.log w ++
        [Elastic.search_sent
           (Elastic.subjects_request (Elastic.CLASS_INDEX (Elastic.this w)))] |}).
Proof.
  intros Hnone Hi Hwin.
  unfold Elastic.getSubjectsFromClasses, Elastic.get_this.
  unfold mbind, Elastic.promise_bind. rewrite Hnone.
  unfold Elastic.client_search, Es.search.
  cbn [Es.sr_index Es.sr_from Es.sr_size Es.sr_body Elastic.subjects_request
       default Es.aggs Es.query Es.sort].
  rewrite Hi.
  destruct (Z.ltb_spec (Es.max_result_window E) (0 + 10)) as [?|_]; [lia|].
  cbn [orb Z.ltb Z.compare]. reflexivity.
Qed.









Example subjects_of_catalogue :
  subjects_of Demo.classes = list_to_set ["cs"; "math"; "phys"].
Proof. vm_compute. reflexivity. Qed.


(** * Further properties *)

(** ** [search]: failure, pages, documents *)


Lemma search_hits_split E i query termId min mid max searchFields :
  0 <= min -> min <= mid -> mid <= max ->
  search_hits E i query termId min max searchFields =
  (search_hits E i query termId min mid searchFields ++
   search_hits E i query termId mid max searchFields)%list.
Proof.
  intros H0 H1 H2. unfold search_hits. cbv zeta.
  rewrite !search_request_query, !search_request_sort.
  set (l := Es.rank _ _). unfold Es.window.
  replace (Z.to_nat (max - min)) with (Z.to_nat (mid - min) + Z.to_nat (max - mid))%nat
    by lia.
  rewrite <- take_take_drop, drop_drop.
  by replace (Z.to_nat min + Z.to_nat (mid - min))%nat with (Z.to_nat mid) by lia.
Qed.

(** X2.  Pages tile the ranking: for [0 <= min <= mid <= max], the documents
    of the page [min, max) are those of the page [min, mid) followed by those
    of the page [mid, max), and the three calls report the same count of
    matches. *)
Theorem search_pages_tile E query termId min mid max searchFields w r1 r2 r :
  (Elastic.search E query termId min mid searchFields w).1 = inr r1 ->
  (Elastic.search E query termId mid max searchFields w).1 = inr r2 ->
  (Elastic.search E query termId min max searchFields w).1 = inr r ->
  Elastic.searchContent r =
    (Elastic.searchContent r1 ++ Elastic.searchContent r2)%list /\
  Elastic.resultCount r = Elastic.resultCount r1 /\
  Elastic.resultCount r = Elastic.resultCount r2.
Proof.
  intros H1 H2 H.
  pose proof H1 as H1'. pose proof H2 as H2'. pose proof H as H'.
  apply search_fulfilled_inv in H1' as (i1 & Hi1 & (? & ? & ?) & Hc1).
  apply search_fulfilled_inv in H2' as (i2 & Hi2 & (? & ? & ?) & Hc2).
  apply search_fulfilled_inv in H' as (i & Hi & Hw & Hc).
  rewrite Hi in Hi1, Hi2. simplify_eq.
  rewrite (search_fulfilled E query termId min mid searchFields w i1) in H1
    by (done || (unfold valid_window; lia)).
  rewrite (search_fulfilled E query termId mid max searchFields w i1) in H2
    by (done || (unfold valid_window; lia)).
  rewrite (search_fulfilled E query termId min max searchFields w i1) in H
    by done.
  simplify_eq. cbn [Elastic.searchContent Elastic.resultCount].
  split; [|done].
  rewrite (search_hits_split E i1 query termId min mid max) by lia.
  by rewrite fmap_app.
Qed.

Lemma search_pages_tile_witness :
  exists r1 r2,
    (Elastic.search Demo.engine "fundamentals" "202010" 0 1 None Demo.world).1
      = inr r1 /\
    (Elastic.search Demo.engine "fundamentals" "202010" 1 2 None Demo.world).1
      = inr r2 /\
    (Elastic.search Demo.engine "fundamentals" "202010" 0 2 None Demo.world).1
      = inr Demo.fundamentals_result /\
    Elastic.searchContent Demo.fundamentals_result =
      (Elastic.searchContent r1 ++ Elastic.searchContent r2)%list.
Proof.
  eexists _, _.
  assert ((Elastic.search Demo.engine "fundamentals" "202010" 0 2 None
             Demo.world).1 = inr Demo.fundamentals_result) as H
    by (vm_compute; reflexivity).
  split; [vm_compute; reflexivity|]. split; [vm_compute; reflexivity|].
  split; [exact H|].
  exact (proj1 (search_pages_tile Demo.engine "fundamentals" "202010" 0 1 2 None
                  Demo.world _ _ _ eq_refl eq_refl H)).
Defined.

(** X3.  A returned document is a stored document of the index with the
    relevance put under [score]: its [score] property is the hit's score,
    whatever [score] the stored document had, and every other property is
    that of the stored document. *)
Theorem search_document_shape E query termId min max searchFields w r d :
  (Elastic.search E query termId min max searchFields w).1 = inr r ->
  d ∈ Elastic.searchContent r ->
  exists i id source s,
    Elastic.engine w !! Elastic.CLASS_INDEX (Elastic.this w) = Some i /\
    Es.searchable i !! id = Some source /\
    Json.get "score" d = Some (JNum s) /\
    Es.multi_match_score E (search_must query searchFields) source = Some s /\
    forall k, k <> "score" -> Json.get k d = Json.get k source.
Proof.
  intros Hr Hd. apply search_fulfilled_inv in Hr as (i & Hi & _ & Hc).
  rewrite Hc in Hd. apply list_elem_of_fmap in Hd as (h & -> & Hh).
  apply elem_of_search_hits in Hh as (Hl & _ & Hs).
  exists i, (Es._id h), (Es._source h), (Es._score h).
  split; [done|]. split; [done|]. split; [|split; [done|]].
  - pose proof (score_with_score h) as H. unfold Json.get_num in H.
    cbn [Json.get_path] in H.
    destruct (Json.get "score" (Elastic.with_score h)) as [[| |n| | |]|];
      simplify_eq/=. done.
  - intros k Hk. pose proof (get_path_with_score k [] h Hk) as H.
    cbn [Json.get_path] in H.
    destruct (Json.get k (Elastic.with_score h)), (Json.get k (Es._source h));
      simplify_eq/=; done.
Qed.

Lemma search_document_shape_witness :
  (Elastic.search Demo.engine "fundamentals" "202010" 0 10 None Demo.world).1
    = inr Demo.fundamentals_result /\
  Demo.scored 1 Demo.cs2500 ∈ Elastic.searchContent Demo.fundamentals_result /\
  exists i id source s,
    Elastic.engine Demo.world !! Elastic.CLASS_INDEX (Elastic.this Demo.world)
      = Some i /\
    Es.searchable i !! id = Some source /\
    Json.get "score" (Demo.scored 1 Demo.cs2500) = Some (JNum s) /\
    Es.multi_match_score Demo.engine (search_must "fundamentals" None) source
      = Some s /\
    forall k, k <> "score" ->
              Json.get k (Demo.scored 1 Demo.cs2500) = Json.get k source.
Proof.
  assert ((Elastic.search Demo.engine "fundamentals" "202010" 0 10 None
             Demo.world).1 = inr Demo.fundamentals_result) as H
    by (vm_compute; reflexivity).
  assert (Demo.scored 1 Demo.cs2500
            ∈ Elastic.searchContent Demo.fundamentals_result) as Hd
    by apply list_elem_of_here.
  split; [exact H|]. split; [exact Hd|].
  exact (search_document_shape Demo.engine "fundamentals" "202010" 0 10 None
           Demo.world _ _ H Hd).
Defined.

(** ** [bulkIndexFromMap]: what is written *)

Lemma store_part_keys (map old : gmap string json) :
  store_part map (Js.keys map) old = map ∪ old.
Proof.
  apply map_eq. intros id. rewrite store_part_lookup, lookup_union.
  destruct (keys_spec map) as [_ Hk].
  destruct (decide (id ∈ Js.keys map)) as [Hin|Hout].
  - apply Hk in Hin as [d Hd]. rewrite Hd. by destruct (old !! id).
  - destruct (map !! id) as [d|] eqn:Hd.
    + exfalso. apply Hout, Hk. by eexists.
    + by destruct (old !! id).
Qed.

Lemma replay_final E st last indexName (map : gmap string json) part parts :
  (forall p, p ∈ part :: parts ->
     Es.bulk_rejected E (Elastic.index_request indexName map p) = false) ->
  Forall (fun p => p <> []) (part :: parts) ->
  final (replay E st last
           (Elastic.index_request indexName map <$> part :: parts)) =
  <[indexName :=
      let docs :=
        store_part map (concat (part :: parts))
          (Es.latest (default Es.empty_index (st !! indexName)))
      in {| Es.latest := docs; Es.searchable := docs |}]> st.
Proof.
  revert st last part. induction parts as [|part' parts IH];
    intros st last part Hok Hne.
  - cbn [fmap list_fmap replay].
    rewrite bulk_index_request; [|apply Hok; by left|by inversion Hne].
    cbn [replay final concat]. by rewrite app_nil_r.
  - rewrite fmap_cons. cbn [replay].
    rewrite bulk_index_request; [|apply Hok; by left|by inversion Hne].
    cbn [final].
    rewrite IH; [|intros p Hp; apply Hok; by right|by inversion Hne].
    rewrite lookup_insert_eq, insert_insert_eq. cbv zeta.
    cbn [default Es.latest concat]. by rewrite (store_part_app map part).
Qed.

Lemma chunk_keys_nonempty {V} (map : gmap string V) :
  map <> ∅ -> exists part parts, Js.chunk (Js.keys map) 100 = part :: parts.
Proof.
  intros Hne. destruct (Js.chunk (Js.keys map) 100) as [|part parts] eqn:Hc;
    [|by eexists _, _].
  exfalso. apply Hne. apply map_empty. intros id.
  destruct (map !! id) as [v|] eqn:Hv; [|done].
  assert (id ∈ Js.keys map) as Hin by (apply keys_spec; by eexists).
  rewrite <- (chunk_concat (Js.keys map) 100), Hc in Hin by lia.
  by apply not_elem_of_nil in Hin.
Qed.

(** The world a fulfilled [bulkIndexFromMap] leaves. *)
Lemma bulkIndexFromMap_final E indexName (map : gmap string json) w :
  (forall r, r ∈ index_requests indexName map -> Es.bulk_rejected E r = false) ->
  map <> ∅ ->
  (exists v, (Elastic.bulkIndexFromMap E indexName map w).1 = inr v) /\
  Elastic.engine (Elastic.bulkIndexFromMap E indexName map w).2 =
    <[indexName := upserted map (Elastic.engine w !! indexName)]> (Elastic.engine w) /\
  Elastic.sets (Elastic.bulkIndexFromMap E indexName map w).2 = Elastic.sets w /\
  Elastic.this (Elastic.bulkIndexFromMap E indexName map w).2 = Elastic.this w.
Proof.
  intros Hok Hne. rewrite bulkIndexFromMap_replay. cbv zeta.
  cbn [fst snd Elastic.engine Elastic.sets Elastic.this].
  split; [|split; [|done]].
  - apply replay_fulfilled.
    + intros p Hp. apply Hok. unfold index_requests.
      apply list_elem_of_fmap. by exists p.
    + eapply Forall_impl; [apply chunk_sizes|]. intros p Hp ->. simpl in Hp. lia.
  - unfold index_requests in *.
    pose proof (chunk_concat (Js.keys map) 100 ltac:(lia)) as Hcat.
    pose proof (chunk_sizes (Js.keys map) 100) as Hsz.
    destruct (chunk_keys_nonempty map Hne) as (part & parts & Hc).
    rewrite Hc in *. rewrite replay_final.
    + cbv zeta. rewrite Hcat, store_part_keys. reflexivity.
    + intros p Hp. apply Hok, list_elem_of_fmap. by exists p.
    + eapply Forall_impl; [exact Hsz|]. intros p Hp ->. simpl in Hp. lia.
Qed.

Lemma keys_empty : Js.keys (∅ : gmap string json) = [].
Proof. unfold Js.keys. by rewrite map_to_list_empty. Qed.

Lemma bulkIndexFromMap_empty E indexName w :
  Elastic.bulkIndexFromMap E indexName ∅ w = (inr None, w).
Proof.
  rewrite bulkIndexFromMap_replay. unfold index_requests. rewrite keys_empty.
  change (Js.chunk [] 100) with (@nil (list string)).
  cbv zeta. cbn [fmap list_fmap replay outcome final events].
  rewrite app_nil_r. by destruct w.
Qed.

(** X4.  On an empty map [bulkIndexFromMap] sends nothing: it is fulfilled
    with [undefined] and leaves everything as it is, the record of client
    calls included.  [bulkUpdateFromMap] still sends its one request, with an
    empty body; the engine refuses it and the call is rejected, the index
    unchanged. *)
Theorem bulk_empty_map E indexName w :
  Elastic.bulkIndexFromMap E indexName ∅ w = (inr None, w) /\
  (exists e, (Elastic.bulkUpdateFromMap E indexName ∅ w).1 = inl e) /\
  sent (Elastic.log (Elastic.bulkUpdateFromMap E indexName ∅ w).2) =
    (sent (Elastic.log w) ++ [Elastic.update_request indexName ∅])%list /\
  Es.bulk_body (Elastic.update_request indexName ∅) = [] /\
  Elastic.engine (Elastic.bulkUpdateFromMap E indexName ∅ w).2 = Elastic.engine w.
Proof.
  pose proof keys_empty as Hk.
  split; [|split; [|split; [|split]]].
  - apply bulkIndexFromMap_empty.
  - unfold Elastic.bulkUpdateFromMap, Elastic.client_bulk. promise_steps.
    cbv zeta. unfold Es.bulk.
    destruct (Es.bulk_rejected E _); [by eexists|].
    unfold Elastic.update_request at 1. cbn [Es.bulk_body]. rewrite Hk.
    cbn [Elastic.update_lines flat_map Es.parse_bulk]. by eexists.
  - unfold Elastic.bulkUpdateFromMap, Elastic.client_bulk. promise_steps.
    cbv zeta.
    destruct (Es.bulk E _ _) as [e|[st response]];
      unfold Elastic.record, Elastic.with_engine;
      cbn [snd Elastic.log]; unfold sent; rewrite !omap_app;
      cbn [omap list_omap]; by rewrite app_nil_r.
  - unfold Elastic.update_request. cbn [Es.bulk_body]. by rewrite Hk.
  - unfold Elastic.bulkUpdateFromMap, Elastic.client_bulk. promise_steps.
    cbv zeta. unfold Es.bulk.
    destruct (Es.bulk_rejected E _); [done|].
    unfold Elastic.update_request at 1. cbn [Es.bulk_body]. rewrite Hk.
    cbn [Elastic.update_lines flat_map Es.parse_bulk]. done.
Qed.




Lemma union_twice (m o : gmap string json) : m ∪ (m ∪ o) = m ∪ o.
Proof.
  apply map_eq. intros id. rewrite !lookup_union.
  by destruct (m !! id), (o !! id).
Qed.

Lemma upserted_twice (map : gmap string json) old :
  upserted map (Some (upserted map old)) = upserted map old.
Proof.
  unfold upserted. simpl. by rewrite union_twice.
Qed.

(** X6.  Writing the same map again changes nothing: the engine holds the
    same documents after two fulfilled [bulkIndexFromMap] calls as after
    one. *)
Theorem bulkIndexFromMap_twice E indexName (map : gmap string json) w :
  (forall r, r ∈ index_requests indexName map -> Es.bulk_rejected E r = false) ->
  Elastic.engine
    (Elastic.bulkIndexFromMap E indexName map
       (Elastic.bulkIndexFromMap E indexName map w).2).2 =
  Elastic.engine (Elastic.bulkIndexFromMap E indexName map w).2.
Proof.
  intros Hok. destruct (decide (map = ∅)) as [->|Hne].
  - by rewrite !bulkIndexFromMap_empty.
  - destruct (bulkIndexFromMap_final E indexName map w Hok Hne)
      as (_ & Heng & _ & _).
    destruct (bulkIndexFromMap_final E indexName map
                (Elastic.bulkIndexFromMap E indexName map w).2 Hok Hne)
      as (_ & Heng2 & _ & _).
    rewrite Heng2, Heng, lookup_insert_eq, insert_insert_eq.
    by rewrite upserted_twice.
Qed.

Lemma bulkIndexFromMap_twice_witness :
  (forall r, r ∈ index_requests "classes" Patch.whole ->
             Es.bulk_rejected Demo.engine r = false) /\
  Elastic.engine
    (Elastic.bulkIndexFromMap Demo.engine "classes" Patch.whole
       (Elastic.bulkIndexFromMap Demo.engine "classes" Patch.whole
          Demo.world).2).2 =
  Elastic.engine
    (Elastic.bulkIndexFromMap Demo.engine "classes" Patch.whole Demo.world).2.
Proof.
  assert (forall r, r ∈ index_requests "classes" Patch.whole ->
                    Es.bulk_rejected Demo.engine r = false) as Hok
    by (intros; reflexivity).
  split; [exact Hok|].
  exact (bulkIndexFromMap_twice Demo.engine "classes" Patch.whole Demo.world Hok).
Defined.





(** ** [bulkUpdateFromMap]: what is patched *)






(** ** [getMapFromIDs]: the ids as a set *)

(** X9.  The map returned depends on the ids as a set only: asking for the
    same ids in another order, or with some of them repeated, returns the
    same map (or the same rejection). *)
Theorem getMapFromIDs_ids_as_set indexName (ids ids' : list string) w :
  (forall id, id ∈ ids <-> id ∈ ids') ->
  (Elastic.getMapFromIDs indexName ids w).1 =
  (Elastic.getMapFromIDs indexName ids' w).1.
Proof.
  intros Hsame. rewrite !getMapFromIDs_unfold. cbv zeta. unfold Es.mget.
  cbn [Es.mget_index Es.ids fst].
  destruct (Elastic.engine w !! indexName) as [i|]; [|done].
  f_equal. apply map_eq. intros id.
  rewrite !collect_found_lookup, lookup_empty.
  destruct (decide (id ∈ ids)) as [Hin|Hout].
  - by rewrite decide_True by (by apply Hsame).
  - by rewrite decide_False by (by rewrite <- Hsame).
Qed.

Lemma getMapFromIDs_ids_as_set_witness :
  (forall id,
     id ∈ ["neu.edu/202010/CS/2500"; "neu.edu/202010/MATH/900"] <->
     id ∈ ["neu.edu/202010/MATH/900"; "neu.edu/202010/CS/2500";
           "neu.edu/202010/MATH/900"]) /\
  (Elastic.getMapFromIDs "classes"
     ["neu.edu/202010/CS/2500"; "neu.edu/202010/MATH/900"] Demo.world).1 =
  (Elastic.getMapFromIDs "classes"
     ["neu.edu/202010/MATH/900"; "neu.edu/202010/CS/2500";
      "neu.edu/202010/MATH/900"] Demo.world).1.
Proof.
  assert (forall id,
            id ∈ ["neu.edu/202010/CS/2500"; "neu.edu/202010/MATH/900"] <->
            id ∈ ["neu.edu/202010/MATH/900"; "neu.edu/202010/CS/2500";
                  "neu.edu/202010/MATH/900"]) as H.
  { intros id. rewrite !elem_of_cons, !elem_of_nil. tauto. }
  split; [exact H|].
  exact (getMapFromIDs_ids_as_set "classes" _ _ Demo.world H).
Defined.

(** ** [getSubjectsFromClasses]: failure, staleness, case *)

(** X10.  A call that fails caches nothing: when the [classes] index does
    not exist the call is rejected with [index_not_found], [this.subjects]
    stays [null] and no set is built; and a later call, made once the index
    exists, queries again and is fulfilled with the subjects of that
    index. *)
Theorem getSubjectsFromClasses_retries E w st i :
  Elastic.subjects (Elastic.this w) = None ->
  Elastic.engine w !! Elastic.CLASS_INDEX (Elastic.this w) = None ->
  st !! Elastic.CLASS_INDEX (Elastic.this w) = Some i ->
  10 <= Es.max_result_window E ->
  (Elastic.getSubjectsFromClasses E w).1 =
    inl (Es.index_not_found (Elastic.CLASS_INDEX (Elastic.this w))) /\
  Elastic.subjects (Elastic.this (Elastic.getSubjectsFromClasses E w).2) = None /\
  Elastic.sets (Elastic.getSubjectsFromClasses E w).2 = Elastic.sets w /\
  exists w1,
    Elastic.getSubjectsFromClasses E
      (Elastic.with_engine st (Elastic.getSubjectsFromClasses E w).2) =
    (inr (length (Elastic.sets w)), w1) /\
    Elastic.sets w1 !! length (Elastic.sets w) = Some (subjects_of i) /\
    length (searches (Elastic.log w1)) = S (S (length (searches (Elastic.log w)))).
Proof.
  intros Hnone Hmiss Hi Hwin.
  assert (Elastic.getSubjectsFromClasses E w =
          (inl (Es.index_not_found (Elastic.CLASS_INDEX (Elastic.this w))),
           Elastic.record
             (Elastic.search_sent
                (Elastic.subjects_request (Elastic.CLASS_INDEX (Elastic.this w))))
             w)) as Hrun.
  { unfold Elastic.getSubjectsFromClasses, Elastic.get_this.
    unfold mbind, Elastic.promise_bind. rewrite Hnone.
    unfold Elastic.client_search, Es.search.
    cbn [Es.sr_index Elastic.subjects_request]. by rewrite Hmiss. }
  rewrite Hrun. cbn [fst snd]. split; [done|]. split; [done|]. split; [done|].
  pose proof (getSubjects_computed E
                (Elastic.with_engine st
                   (Elastic.record
                      (Elastic.search_sent
                         (Elastic.subjects_request
                            (Elastic.CLASS_INDEX (Elastic.this w)))) w))
                i Hnone Hi Hwin) as Hnext.
  eexists. split; [exact Hnext|].
  cbn [Elastic.sets Elastic.record Elastic.with_engine Elastic.log].
  split; [by rewrite lookup_app_r, Nat.sub_diag|].
  unfold searches. rewrite !omap_app, !length_app. cbn [omap list_omap length].
  lia.
Qed.

Lemma getSubjectsFromClasses_retries_witness :
  Elastic.subjects (Elastic.this (Elastic.boot ∅)) = None /\
  Elastic.engine (Elastic.boot ∅) !! Elastic.CLASS_INDEX (Elastic.this (Elastic.boot ∅))
    = None /\
  Demo.state !! Elastic.CLASS_INDEX (Elastic.this (Elastic.boot ∅))
    = Some Demo.classes /\
  10 <= Es.max_result_window Demo.engine /\
  (Elastic.getSubjectsFromClasses Demo.engine (Elastic.boot ∅)).1 =
    inl (Es.index_not_found "classes") /\
  exists w1,
    Elastic.getSubjectsFromClasses Demo.engine
      (Elastic.with_engine Demo.state
         (Elastic.getSubjectsFromClasses Demo.engine (Elastic.boot ∅)).2) =
    (inr 0%nat, w1) /\
    Elastic.sets w1 !! 0%nat = Some (subjects_of Demo.classes).
Proof.
  assert (Elastic.subjects (Elastic.this (Elastic.boot ∅)) = None) as H1
    by reflexivity.
  assert (Elastic.engine (Elastic.boot ∅)
            !! Elastic.CLASS_INDEX (Elastic.this (Elastic.boot ∅)) = None) as H2
    by (vm_compute; reflexivity).
  assert (Demo.state !! Elastic.CLASS_INDEX (Elastic.this (Elastic.boot ∅))
          = Some Demo.classes) as H3 by (vm_compute; reflexivity).
  assert (10 <= Es.max_result_window Demo.engine) as H4 by (simpl; lia).
  split; [exact H1|]. split; [exact H2|]. split; [exact H3|]. split; [exact H4|].
  destruct (getSubjectsFromClasses_retries Demo.engine (Elastic.boot ∅)
              Demo.state Demo.classes H1 H2 H3 H4)
    as (Hr & _ & _ & w1 & Hrun & Hset & _).
  split; [exact Hr|]. exists w1. split; [exact Hrun|exact Hset].
Defined.

(** X11.  The cache is never refreshed by a write: once [this.subjects] is
    set, a [bulkIndexFromMap] of any map into any index leaves the cached
    reference and the set behind it as they were, and the next
    [getSubjectsFromClasses] returns that reference without a search, whatever
    subjects the index now holds. *)
Theorem getSubjectsFromClasses_stale E indexName (map : gmap string json) w set :
  Elastic.subjects (Elastic.this w) = Some set ->
  Elastic.getSubjectsFromClasses E
    (Elastic.bulkIndexFromMap E indexName map w).2 =
  (inr set, (Elastic.bulkIndexFromMap E indexName map w).2) /\
  Elastic.sets (Elastic.bulkIndexFromMap E indexName map w).2 !! set =
  Elastic.sets w !! set.
Proof.
  intros Hs. rewrite bulkIndexFromMap_replay. cbv zeta. cbn [snd].
  split; [|done]. by apply getSubjects_cached.
Qed.

Lemma getSubjectsFromClasses_stale_witness :
  Elastic.subjects
    (Elastic.this (Elastic.getSubjectsFromClasses Demo.engine Demo.world).2)
    = Some 0%nat /\
  (Elastic.getSubjectsFromClasses Demo.engine
     (Elastic.bulkIndexFromMap Demo.engine "classes" Patch.arts
        (Elastic.getSubjectsFromClasses Demo.engine Demo.world).2).2).1
    = inr 0%nat /\
  Elastic.sets
    (Elastic.bulkIndexFromMap Demo.engine "classes" Patch.arts
       (Elastic.getSubjectsFromClasses Demo.engine Demo.world).2).2 !! 0%nat
    = Some (list_to_set ["cs"; "math"; "phys"]).
Proof.
  assert (Elastic.subjects
            (Elastic.this (Elastic.getSubjectsFromClasses Demo.engine Demo.world).2)
          = Some 0%nat) as H by reflexivity.
  split; [exact H|].
  destruct (getSubjectsFromClasses_stale Demo.engine "classes" Patch.arts
              (Elastic.getSubjectsFromClasses Demo.engine Demo.world).2 0%nat H)
    as [Hrun Hset].
  split; [by rewrite Hrun|]. rewrite Hset. vm_compute. reflexivity.
Defined.





(** ** Occurrences of a class *)

Lemma elem_of_filtered_hits clauses i h :
  h ∈ EsOps.filtered_hits clauses i <->
  Es.searchable i !! Es._id h = Some (Es._source h) /\
  EsOps.all_match clauses (Es._source h) = true /\ Es._score h = 0.
Proof.
  unfold EsOps.filtered_hits. rewrite list_elem_of_omap. split.
  - intros ([id src] & Hin & Hs). apply elem_of_map_to_list in Hin.
    cbn [fst snd] in Hs.
    destruct (EsOps.all_match clauses src) eqn:Hm; simplify_eq/=. done.
  - intros (Hl & Hm & Hs). exists (Es._id h, Es._source h). split.
    + by apply elem_of_map_to_list.
    + cbn [fst snd]. rewrite Hm. destruct h. cbn in Hs. by subst.
Qed.

(** A document that passes the three filters has a [class], which holds the
    three values. *)
Lemma occurrence_class host subject classId d :
  EsOps.all_match (ElasticOps.occurrence_filter host subject classId) d = true ->
  exists c,
    Json.get "class" d = Some c /\
    host ∈ class_field c "host" /\
    subject ∈ class_field c "subject" /\
    classId ∈ class_field c "classId".
Proof.
  unfold EsOps.all_match, ElasticOps.occurrence_filter.
  cbn [forallb Es.filter_matches]. rewrite !andb_true_iff.
  intros (Hh & Hs & Hc & _).
  fold (has_term "class.host.keyword" host d) in Hh.
  fold (has_term "class.subject.keyword" subject d) in Hs.
  fold (has_term "class.classId.keyword" classId d) in Hc.
  apply has_term_true in Hh, Hs, Hc.
  unfold Es.field_values in Hh, Hs, Hc.
  change (Es.field_path "class.host.keyword") with ["class"; "host"] in Hh.
  change (Es.field_path "class.subject.keyword") with ["class"; "subject"] in Hs.
  change (Es.field_path "class.classId.keyword") with ["class"; "classId"] in Hc.
  cbn [Json.get_path] in Hh, Hs, Hc. unfold class_field.
  destruct (Json.get "class" d) as [c|]; [|by apply not_elem_of_nil in Hh].
  exists c. split; [done|].
  destruct (Json.get "host" c); [|by apply not_elem_of_nil in Hh].
  destruct (Json.get "subject" c); [|by apply not_elem_of_nil in Hs].
  destruct (Json.get "classId" c); [|by apply not_elem_of_nil in Hc].
  done.
Qed.

Lemma search_filtered_hits E mapped st (r : EsOps.FilterSearch) i :
  st !! EsOps.fs_index r = Some i ->
  0 <= EsOps.fs_size r <= Es.max_result_window E ->
  forallb (EsOps.sortable mapped) (EsOps.fs_sort r) = true ->
  EsOps.search_filtered E mapped st r =
  inr (take (Z.to_nat (EsOps.fs_size r))
         (Es.rank match EsOps.fs_sort r with [] => [Es.by_score] | ks => ks end
            (EsOps.filtered_hits (EsOps.fs_filter r) i))).
Proof.
  intros Hi [H0 H1] Hs. unfold EsOps.search_filtered. rewrite Hi, Hs.
  destruct (Z.ltb_spec (EsOps.fs_size r) 0) as [?|_]; [lia|].
  destruct (Z.ltb_spec (Es.max_result_window E) (EsOps.fs_size r)) as [?|_];
    [lia|].
  reflexivity.
Qed.

(** X13.  [getAllClassOccurrences] returns at most ten occurrences and says
    nothing when there are more: the list has as many entries as the index
    has searchable occurrences, capped at 10.  Every entry is the [class] of
    such an occurrence, never [undefined], and holds the requested host,
    subject and class identifier; with ten occurrences or fewer, all of them
    are returned. *)
Theorem getAllClassOccurrences_capped E mapped self st host subject classId i :
  st !! Elastic.CLASS_INDEX self = Some i ->
  10 <= Es.max_result_window E ->
  exists classes,
    ElasticOps.getAllClassOccurrences E mapped self st host subject classId
      = inr classes /\
    length classes = Nat.min 10 (length (occurrences i host subject classId)) /\
    (forall x, x ∈ classes ->
       exists h c,
         h ∈ occurrences i host subject classId /\
         x = Some c /\ Json.get "class" (Es._source h) = Some c /\
         host ∈ class_field c "host" /\
         subject ∈ class_field c "subject" /\
         classId ∈ class_field c "classId") /\
    ((length (occurrences i host subject classId) <= 10)%nat ->
     classes ≡ₚ ElasticOps.class_of <$> occurrences i host subject classId).
Proof.
  intros Hi Hwin. unfold ElasticOps.getAllClassOccurrences.
  rewrite (search_filtered_hits E mapped st _ i) by (done || (simpl; lia)).
  cbn [EsOps.fs_size EsOps.fs_sort EsOps.fs_filter].
  fold (occurrences i host subject classId).
  set (occ := occurrences i host subject classId).
  eexists. split; [reflexivity|]. split; [|split].
  - rewrite length_fmap, length_take. unfold Es.rank.
    rewrite merge_sort_Permutation. reflexivity.
  - intros x Hx. apply list_elem_of_fmap in Hx as (h & -> & Hh).
    apply (subseteq_take (Z.to_nat 10)), elem_of_rank in Hh.
    pose proof Hh as Hocc. apply elem_of_filtered_hits in Hocc as (_ & Hm & _).
    apply occurrence_class in Hm as (c & Hc & H1 & H2 & H3).
    exists h, c. unfold ElasticOps.class_of. by rewrite Hc.
  - intros Hle. rewrite take_ge.
    + unfold Es.rank. by rewrite merge_sort_Permutation.
    + unfold Es.rank. rewrite merge_sort_Permutation. fold occ. lia.
Qed.

Lemma getAllClassOccurrences_capped_witness :
  Demo.state !! Elastic.CLASS_INDEX Elastic.constructor = Some Demo.classes /\
  10 <= Es.max_result_window Demo.engine /\
  exists classes,
    ElasticOps.getAllClassOccurrences Demo.engine (fun _ => true)
      Elastic.constructor Demo.state "neu.edu" "CS" "2500" = inr classes /\
    length classes = 2%nat.
Proof.
  assert (Demo.state !! Elastic.CLASS_INDEX Elastic.constructor
          = Some Demo.classes) as H1 by (vm_compute; reflexivity).
  assert (10 <= Es.max_result_window Demo.engine) as H2 by (simpl; lia).
  split; [exact H1|]. split; [exact H2|].
  destruct (getAllClassOccurrences_capped Demo.engine (fun _ => true)
              Elastic.constructor Demo.state "neu.edu" "CS" "2500" Demo.classes
              H1 H2) as (classes & Hrun & Hlen & _).
  exists classes. split; [exact Hrun|]. rewrite Hlen. vm_compute. reflexivity.
Defined.

Lemma hit_le_term_desc h h' :
  Es.hit_le [Es.by_field "class.termId.keyword" Es.desc None] h h' <->
  term_le (occurrence_term h') (occurrence_term h)
  \/ (occurrence_term h' = None).
Proof.
  unfold Es.hit_le, Es.hit_leb, occurrence_term, term_le.
  cbn [Es.compare_hits Es.compare_key].
  destruct (Es.sort_value _ _ h) as [t|], (Es.sort_value _ _ h') as [t'|];
    cbn [Es.compare_values].
  - unfold String.le, String.leb.
    destruct (String.compare t' t) eqn:Hc; split; try done;
      try (intros _; left; done); intros [?|?]; done.
  - split; [by right|done].
  - split; [done|]. intros [?|?]; done.
  - split; [by right|done].
Qed.

(** X14.  [getLatestClassOccurrence] sorts on [class.termId.keyword] without
    a fallback type: when the index does not map that field the call is
    rejected.  When it does, the call answers [null] exactly when the index
    has no searchable occurrence of the class, and otherwise the [class] of
    an occurrence whose term is the greatest as a string: no occurrence that
    carries a term has a greater one. *)
Theorem getLatestClassOccurrence_greatest_term E mapped self st
    host subject classId i :
  st !! Elastic.CLASS_INDEX self = Some i ->
  1 <= Es.max_result_window E ->
  (mapped "class.termId.keyword" = false ->
   exists reason,
     ElasticOps.getLatestClassOccurrence E mapped self st host subject classId
       = inl (Es.illegal_argument reason)) /\
  (mapped "class.termId.keyword" = true ->
   exists v,
     ElasticOps.getLatestClassOccurrence E mapped self st host subject classId
       = inr v /\
     (occurrences i host subject classId = [] -> v = Some JNull) /\
     (occurrences i host subject classId <> [] ->
      exists h c,
        h ∈ occurrences i host subject classId /\
        v = Some c /\ c <> JNull /\
        Json.get "class" (Es._source h) = Some c /\
        forall h' t',
          h' ∈ occurrences i host subject classId ->
          occurrence_term h' = Some t' ->
          exists t, occurrence_term h = Some t /\ String.le t' t)).
Proof.
  intros Hi Hwin. split.
  - intros Hun. unfold ElasticOps.getLatestClassOccurrence, EsOps.search_filtered.
    cbn [EsOps.fs_index EsOps.fs_size EsOps.fs_sort forallb EsOps.sortable].
    rewrite Hi, Hun.
    destruct (Z.ltb_spec (Es.max_result_window E) 1) as [?|_]; [lia|].
    cbn. by eexists.
  - intros Hmap. unfold ElasticOps.getLatestClassOccurrence.
    rewrite (search_filtered_hits E mapped st _ i);
      [|done|simpl; lia|by cbn [EsOps.fs_sort forallb EsOps.sortable]; rewrite Hmap].
    cbn [EsOps.fs_size EsOps.fs_sort EsOps.fs_filter].
    fold (occurrences i host subject classId).
    set (occ := occurrences i host subject classId).
    set (keys := [Es.by_field "class.termId.keyword" Es.desc None]).
    eexists. split; [reflexivity|].
    pose proof (rank_sorted keys occ) as Hsorted.
    assert (forall h, h ∈ Es.rank keys occ <-> h ∈ occ) as Hperm
      by (intros; apply elem_of_rank).
    rewrite lookup_take_lt by (simpl; lia).
    destruct (Es.rank keys occ) as [|h rest] eqn:Hrank.
    + split; [done|]. intros Hne. exfalso.
      destruct occ as [|h occ']; [done|].
      assert (h ∈ h :: occ') as Hin by (by left).
      apply Hperm in Hin. by apply not_elem_of_nil in Hin.
    + split.
      { intros Hnil. exfalso. assert (h ∈ occ) as Hin by (apply Hperm; by left).
        rewrite Hnil in Hin. by apply not_elem_of_nil in Hin. }
      intros _. cbn [lookup list_lookup].
      assert (h ∈ occ) as Hin by (apply Hperm; by left).
      pose proof Hin as Hocc. apply elem_of_filtered_hits in Hocc as (_ & Hm & _).
      apply occurrence_class in Hm as (c & Hc & Hhost & _).
      exists h, c. split; [done|]. split; [by unfold ElasticOps.class_of|].
      split; [by intros ->; apply not_elem_of_nil in Hhost|].
      split; [done|]. intros h' t' Hin' Ht'.
      assert (Es.hit_le keys h h') as Hle.
      { apply Hperm in Hin'. apply elem_of_cons in Hin' as [->|Hin'].
        - destruct (total (Es.hit_le keys) h h); done.
        - apply StronglySorted_inv in Hsorted as [_ Hall].
          rewrite Forall_forall in Hall. by apply Hall. }
      apply hit_le_term_desc in Hle as [Hle|Hnone]; [|congruence].
      rewrite Ht' in Hle. unfold term_le in Hle.
      destruct (occurrence_term h) as [t|]; [|done]. by exists t.
Qed.

Lemma getLatestClassOccurrence_greatest_term_witness :
  Demo.state !! Elastic.CLASS_INDEX Elastic.constructor = Some Demo.classes /\
  1 <= Es.max_result_window Demo.engine /\
  ElasticOps.getLatestClassOccurrence Demo.engine (fun _ => true)
    Elastic.constructor Demo.state "neu.edu" "CS" "2500"
    = inr (Json.get "class" Demo.cs2500_summer) /\
  ElasticOps.getLatestClassOccurrence Demo.engine (fun _ => true)
    Elastic.constructor Demo.state "neu.edu" "CS" "9999" = inr (Some JNull) /\
  exists reason,
    ElasticOps.getLatestClassOccurrence Demo.engine (fun _ => false)
      Elastic.constructor Demo.state "neu.edu" "CS" "2500"
      = inl (Es.illegal_argument reason).
Proof.
  assert (Demo.state !! Elastic.CLASS_INDEX Elastic.constructor
          = Some Demo.classes) as H1 by (vm_compute; reflexivity).
  assert (1 <= Es.max_result_window Demo.engine) as H2 by (simpl; lia).
  split; [exact H1|]. split; [exact H2|].
  split; [vm_compute; reflexivity|]. split; [vm_compute; reflexivity|].
  exact (proj1 (getLatestClassOccurrence_greatest_term Demo.engine
                  (fun _ => false) Elastic.constructor Demo.state
                  "neu.edu" "CS" "2500" Demo.classes H1 H2) eq_refl).
Defined.

(** ** [get], [resetIndex] and a full reindex *)




Lemma resetIndex_accepted accepts st indexName mapping :
  accepts mapping = true ->
  ElasticOps.resetIndex accepts st indexName mapping =
  (inr tt, <[indexName := Es.empty_index]> st).
Proof.
  intros Hacc. unfold ElasticOps.resetIndex, EsOps.indices_delete,
    EsOps.indices_create.
  destruct (st !! indexName) as [i|] eqn:Hi; cbv zeta.
  - rewrite lookup_delete_eq, Hacc. by rewrite insert_delete_eq.
  - by rewrite Hi, Hacc.
Qed.

(** X17.  [resetIndex] does not mind a missing index: the failed deletion is
    swallowed.  When the engine accepts the mapping the call is fulfilled and
    the index is there and empty, whether it existed or not.  When the engine
    refuses the mapping the call is rejected after the deletion: the index
    and its documents are gone.  No other index is touched. *)
Theorem resetIndex_outcomes accepts st indexName mapping :
  (accepts mapping = true ->
   ElasticOps.resetIndex accepts st indexName mapping =
   (inr tt, <[indexName := Es.empty_index]> st)) /\
  (accepts mapping = false ->
   exists reason,
     ElasticOps.resetIndex accepts st indexName mapping =
     (inl (Es.illegal_argument reason), delete indexName st)) /\
  (forall other,
     other <> indexName ->
     (ElasticOps.resetIndex accepts st indexName mapping).2 !! other = st !! other).
Proof.
  split; [apply resetIndex_accepted|]. split.
  - intros Hacc. unfold ElasticOps.resetIndex, EsOps.indices_delete,
      EsOps.indices_create.
    destruct (st !! indexName) as [i|] eqn:Hi; cbv zeta.
    + rewrite lookup_delete_eq, Hacc. by eexists.
    + rewrite Hi, Hacc, delete_id by done. by eexists.
  - intros other Hne. destruct (accepts mapping) eqn:Hacc.
    + rewrite resetIndex_accepted by done. cbn [snd].
      by rewrite lookup_insert_ne.
    + unfold ElasticOps.resetIndex, EsOps.indices_delete, EsOps.indices_create.
      destruct (st !! indexName) as [i|] eqn:Hi; cbv zeta.
      * rewrite lookup_delete_eq, Hacc. cbn [snd]. by rewrite lookup_delete_ne.
      * by rewrite Hi, Hacc.
Qed.



